(** * fetch-realtime.js: batch polling and reconciliation of daily quote rows

    A shallow embedding of [src/scripts/fetch-realtime.js]: the quote
    normaliser ([formatDate], [parseDate], [parseValue], the valid-price test),
    the two retry loops ([fetchWithRetry] of the per-symbol script and
    [fetchBatchWithRetry] of the batch script), the reconciliation of a fresh
    row with the persisted series ([processStock], [processBatchData]) and the
    batch driver [main].

    JavaScript values are embedded as an inductive type of JSON scalars;
    numbers are IEEE 754 binary64 values ([spec_float] of the standard
    library, precision 53, maximal exponent 1024).  Exceptions are explicit
    ([completion]); the network and the clock are an explicit [World]; the
    files under [public/data] are an explicit [Store].

    What the embedding leaves out:
    - the properties of a provider record are scalars (the provider sends
      strings); nested arrays and objects are not modelled, and an element of
      [msgArray] is an object;
    - strings are sequences of 8-bit characters, and the white space
      [Number] trims is the white space below code 128;
    - the clock advances while a request is awaited and during [delay], not
      between two synchronous statements, and never goes back;
    - a file of the store decodes to an array of arrays of scalars; a missing
      or undecodable file reads as the empty array;
    - logging is left out. *)

From Stdlib Require Import ZArith Ascii String List Floats.SpecFloat Lia.
From stdpp Require Import base option list strings gmap.

Local Open Scope string_scope.
Local Open Scope Z_scope.

(** ** JavaScript values *)

(** Binary64 operations of [SpecFloat]. *)
Definition prec : Z := 53.
Definition emax : Z := 1024.

Abbreviation JSNumber := spec_float (only parsing).

(** The scalars a decoded JSON document holds, and [undefined] for an absent
    property or an index past the end of an array. *)
Inductive JSValue : Type :=
  | JUndefined
  | JNull
  | JBool (b : bool)
  | JNum (x : JSNumber)
  | JStr (s : string).

(** The number a mathematical integer rounds to. *)
Definition numOfZ (z : Z) : JSNumber := binary_normalize prec emax z 0 false.

Definition isNaNnum (x : JSNumber) : bool :=
  match x with S754_nan => true | _ => false end.

Definition isFiniteNum (x : JSNumber) : bool :=
  match x with S754_zero _ | S754_finite _ _ _ => true | _ => false end.

(** ToBoolean. *)
Definition truthy (v : JSValue) : bool :=
  match v with
  | JUndefined | JNull => false
  | JBool b => b
  | JNum (S754_zero _) | JNum S754_nan => false
  | JNum _ => true
  | JStr s => negb (String.eqb s "")
  end.

(** [a === b]. *)
Definition strictEq (a b : JSValue) : bool :=
  match a, b with
  | JUndefined, JUndefined => true
  | JNull, JNull => true
  | JBool x, JBool y => Bool.eqb x y
  | JNum x, JNum y => SFeqb x y
  | JStr x, JStr y => String.eqb x y
  | _, _ => false
  end.

(** *** Characters and strings *)

Definition isDigit (ch : ascii) : bool :=
  let n := N_of_ascii ch in (N.leb 48 n && N.leb n 57)%bool.

Definition digitVal (ch : ascii) : Z := Z.of_N (N_of_ascii ch) - 48.

(** WhiteSpace and LineTerminator code units below 128. *)
Definition isStrWhiteSpace (ch : ascii) : bool :=
  let n := N_of_ascii ch in
  (N.eqb n 9 || N.eqb n 10 || N.eqb n 11 || N.eqb n 12 || N.eqb n 13 || N.eqb n 32)%bool.

Definition chars (s : string) : list ascii := list_ascii_of_string s.
Definition str (l : list ascii) : string := string_of_list_ascii l.

(** [s.replace(/\D/g, '')]. *)
Definition removeNonDigits (s : string) : string := str (filter (fun ch => isDigit ch = true) (chars s)).

(** [s.replace(/-/g, '')] and [s.replace(/\//g, '')]. *)
Definition removeChar (x : ascii) (s : string) : string :=
  str (filter (fun ch => ch ≠ x) (chars s)).

(** [s.slice(0, n)]. *)
Definition slice0 (n : nat) (s : string) : string := str (take n (chars s)).

(** [s.includes('/')] for a one-character needle. *)
Definition includesChar (x : ascii) (s : string) : bool :=
  existsb (Ascii.eqb x) (chars s).

(** *** StringToNumber *)

(** The value [m * 10^e] (with [m >= 0]) rounded to the nearest binary64,
    ties to even; [neg] is the sign. *)
Definition roundDecimal (neg : bool) (m : Z) (e : Z) : JSNumber :=
  match m with
  | Zpos _ =>
      if 0 <=? e then
        binary_normalize prec emax (if neg then - (m * 10 ^ e) else m * 10 ^ e) 0 neg
      else
        let d := 10 ^ (- e) in
        let k := Z.max 0 (55 + Z.log2 d - Z.log2 m) in
        let n := m * 2 ^ k in
        let q := n / d in
        let r := n mod d in
        let loc := if r =? 0 then loc_Exact else loc_Inexact (Z.compare (2 * r) d) in
        binary_round_aux prec emax neg q (- k) loc
  | _ => S754_zero neg
  end.

(** A run of decimal digits: its value, how many digits it has, and the rest. *)
Fixpoint readDigits (l : list ascii) (acc : Z) (cnt : Z) : Z * Z * list ascii :=
  match l with
  | ch :: l' => if isDigit ch then readDigits l' (10 * acc + digitVal ch) (cnt + 1)
                else (acc, cnt, l)
  | [] => (acc, cnt, l)
  end.

(** ExponentPart, optional: [e], a sign, digits.  [None] when an [e] is not
    followed by digits or something else follows. *)
Definition readExponent (l : list ascii) : option Z :=
  match l with
  | [] => Some 0
  | ch :: l1 =>
      if (Ascii.eqb ch "e" || Ascii.eqb ch "E")%bool then
        let '(sgn, l2) :=
          match l1 with
          | "+"%char :: l2 => (1, l2)
          | "-"%char :: l2 => (-1, l2)
          | _ => (1, l1)
          end in
        match readDigits l2 0 0 with
        | (x, cnt, []) => if 0 <? cnt then Some (sgn * x) else None
        | _ => None
        end
      else None
  end.

(** StrUnsignedDecimalLiteral. *)
Definition readUnsignedDecimal (neg : bool) (l : list ascii) : JSNumber :=
  if String.eqb (str l) "Infinity" then S754_infinity neg else
  let '(ip, icnt, l1) := readDigits l 0 0 in
  match l1 with
  | "."%char :: l2 =>
      let '(m, fcnt, l3) := readDigits l2 ip 0 in
      if (icnt =? 0) && (fcnt =? 0) then S754_nan else
      match readExponent l3 with
      | Some x => roundDecimal neg m (x - fcnt)
      | None => S754_nan
      end
  | _ =>
      if icnt =? 0 then S754_nan else
      match readExponent l1 with
      | Some x => roundDecimal neg ip x
      | None => S754_nan
      end
  end.

Definition radixDigit (radix : Z) (ch : ascii) : option Z :=
  let n := Z.of_N (N_of_ascii ch) in
  let v := if (48 <=? n) && (n <=? 57) then n - 48
           else if (97 <=? n) && (n <=? 102) then n - 87
           else if (65 <=? n) && (n <=? 70) then n - 55
           else 99 in
  if v <? radix then Some v else None.

Fixpoint readRadix (radix : Z) (l : list ascii) (acc : Z) : option Z :=
  match l with
  | [] => Some acc
  | ch :: l' => match radixDigit radix ch with
                | Some v => readRadix radix l' (radix * acc + v)
                | None => None
                end
  end.

(** NonDecimalIntegerLiteral: [0x], [0o], [0b] and at least one digit. *)
Definition readNonDecimal (l : list ascii) : option JSNumber :=
  match l with
  | "0"%char :: p :: (_ :: _) as ds =>
      let radix := if (Ascii.eqb p "x" || Ascii.eqb p "X")%bool then Some 16
                   else if (Ascii.eqb p "o" || Ascii.eqb p "O")%bool then Some 8
                   else if (Ascii.eqb p "b" || Ascii.eqb p "B")%bool then Some 2
                   else None in
      match radix with
      | Some rx => Some (match readRadix rx ds 0 with
                         | Some v => numOfZ v
                         | None => S754_nan
                         end)
      | None => None
      end
  | _ => None
  end.

Fixpoint dropWhileWS (l : list ascii) : list ascii :=
  match l with
  | ch :: l' => if isStrWhiteSpace ch then dropWhileWS l' else l
  | [] => []
  end.

Definition trimWS (l : list ascii) : list ascii :=
  rev (dropWhileWS (rev (dropWhileWS l))).

Definition StringToNumber (s : string) : JSNumber :=
  match trimWS (chars s) with
  | [] => S754_zero false
  | "+"%char :: l => readUnsignedDecimal false l
  | "-"%char :: l => readUnsignedDecimal true l
  | l => match readNonDecimal l with
         | Some x => x
         | None => readUnsignedDecimal false l
         end
  end.

(** [Number(v)]. *)
Definition Number (v : JSValue) : JSNumber :=
  match v with
  | JUndefined => S754_nan
  | JNull => S754_zero false
  | JBool true => numOfZ 1
  | JBool false => S754_zero false
  | JNum x => x
  | JStr s => StringToNumber s
  end.

(** [isNaN(x)] on a number. *)
Definition isNaN (x : JSNumber) : bool := isNaNnum x.

(** *** Date: [new Date(x).toISOString()] *)

(** TimeClip: the time value of [new Date(x)], [None] for an invalid date. *)
Definition TimeClip (x : JSNumber) : option Z :=
  match x with
  | S754_zero _ => Some 0
  | S754_finite s m e =>
      let mag := if 0 <=? e then Zpos m * 2 ^ e else Zpos m / 2 ^ (- e) in
      if mag <=? 8640000000000000 then Some (if s then - mag else mag) else None
  | _ => None
  end.

(** Year, month and day of a day number counted from 1970-01-01 in the
    proleptic Gregorian calendar. *)
Definition civilFromDays (days : Z) : Z * Z * Z :=
  let z := days + 719468 in
  let era := z / 146097 in
  let doe := z - era * 146097 in
  let yoe := (doe - doe / 1460 + doe / 36524 - doe / 146096) / 365 in
  let doy := doe - (365 * yoe + yoe / 4 - yoe / 100) in
  let mp := (5 * doy + 2) / 153 in
  let day := doy - (153 * mp + 2) / 5 + 1 in
  let month := if mp <? 10 then mp + 3 else mp - 9 in
  let year := yoe + era * 400 + (if month <=? 2 then 1 else 0) in
  (year, month, day).

Definition digitChar (n : Z) : ascii := ascii_of_N (48 + Z.to_N (n mod 10)).

(** The last [k] decimal digits of [n], zero padded. *)
Fixpoint padDigits (k : nat) (n : Z) : list ascii :=
  match k with
  | O => []
  | S k' => padDigits k' (n / 10) ++ [digitChar n]
  end.

Definition isoYear (y : Z) : list ascii :=
  if (0 <=? y) && (y <=? 9999) then padDigits 4 y
  else (if y <? 0 then "-"%char else "+"%char) :: padDigits 6 (Z.abs y).

(** [toISOString] of a valid time value: [YYYY-MM-DDTHH:mm:ss.sssZ], the year
    extended to a sign and six digits outside 0..9999. *)
Definition toISOString (t : Z) : string :=
  let '(year, month, day) := civilFromDays (t / 86400000) in
  let ms := t mod 86400000 in
  str (isoYear year ++ "-"%char :: padDigits 2 month ++ "-"%char :: padDigits 2 day
       ++ "T"%char :: padDigits 2 (ms / 3600000) ++ ":"%char :: padDigits 2 (ms / 60000 mod 60)
       ++ ":"%char :: padDigits 2 (ms / 1000 mod 60) ++ "."%char :: padDigits 3 (ms mod 1000)
       ++ ["Z"%char]).

(** ** Exceptions *)

Inductive JSError : Type := TypeError | RangeError.

Inductive completion (A : Type) : Type :=
  | Normal (a : A)
  | Throw (e : JSError).
Arguments Normal {A} a.
Arguments Throw {A} e.

Definition bindC {A B} (m : completion A) (k : A -> completion B) : completion B :=
  match m with
  | Normal a => k a
  | Throw e => Throw e
  end.

Notation "x <-! m ; k" := (bindC m (fun x => k))
  (at level 100, m at next level, right associativity).

(** ** Records of the provider and symbols *)

(** One element of [msgArray]: the properties the script reads.  An absent
    property is [JUndefined]. *)
Record RawQuote : Type := mkQuote {
  data_c : JSValue;
  data_z : JSValue;
  data_d : JSValue;
  data_tlong : JSValue;
  data_o : JSValue;
  data_h : JSValue;
  data_l : JSValue;
  data_v : JSValue
}.

(** An entry of [stock_list.json] that passed the allow-list filter; [id] is
    one of the strings of [TARGET_STOCK_IDS]. *)
Record Stock : Type := mkStock {
  stock_id : string;
  stock_name : string;
  stock_type : string
}.

Definition TARGET_STOCK_IDS : list string :=
  ["2330"; "2317"; "2454"; "2731"; "2885"; "2891"; "0052"; "0056"; "1215";
   "00713"; "2646"; "2308"; "2412"; "00646"; "3008"; "00919"; "00937B"; "00679B"].

Definition BATCH_SIZE : nat := 30.
Definition RETRY_INTERVAL : Z := 3000.
Definition BATCH_FETCH_TIME : Z := 30000.
Definition MAX_RETRY_TIME : Z := 30000.

(** ** Quote normaliser *)

(** [function formatDate(dateStr)]; calling [replace] on a truthy value that
    is not a string is a TypeError. *)
Definition formatDate (dateStr : JSValue) : completion JSValue :=
  if negb (truthy dateStr) then Normal JNull
  else match dateStr with
       | JStr s => Normal (JStr (slice0 8 (removeNonDigits s)))
       | _ => Throw TypeError
       end.

(** [function parseDate(data)].  [toISOString] of an invalid date is a
    RangeError; calling [includes] on a truthy value that is not a string is a
    TypeError. *)
Definition parseDate (data : RawQuote) : completion JSValue :=
  let todayDate := data_d data in
  todayDate <-! (if negb (truthy todayDate) && truthy (data_tlong data) then
                   match TimeClip (Number (data_tlong data)) with
                   | Some t => Normal (JStr (removeChar "-" (slice0 10 (toISOString t))))
                   | None => Throw RangeError
                   end
                 else Normal todayDate);
  todayDate <-! (if truthy todayDate then
                   match todayDate with
                   | JStr s => if includesChar "/" s then Normal (JStr (removeChar "/" s))
                               else Normal todayDate
                   | _ => Throw TypeError
                   end
                 else Normal todayDate);
  formatDate todayDate.

(** The placeholder ['-'] the provider sends for "no data". *)
Definition Missing : JSValue := JStr "-".

(** [function parseValue(val)]. *)
Definition parseValue (val : JSValue) : JSValue :=
  if strictEq val (JStr "-") || strictEq val JNull || strictEq val JUndefined
     || strictEq val (JStr "") then JStr "-"
  else let num := Number val in
       if isNaN num then JStr "-" else JNum num.

(** [data.z && data.z !== '-' && !isNaN(Number(data.z))], as a condition. *)
Definition hasValidPrice (data : RawQuote) : bool :=
  truthy (data_z data) && negb (strictEq (data_z data) (JStr "-"))
  && negb (isNaN (Number (data_z data))).

(** ** Keys of [Map] and [Set] *)

(** The keys of [bestDataMap] and [validStockIds] are the ids of the batch,
    which are strings, and the values of [data.c] that are truthy.  On those
    SameValueZero is equality of the embedded values, so the collections are
    [gmap] and [gset] over [JSValue]. *)

Global Instance spec_float_eq_dec : EqDecision spec_float.
Proof. solve_decision. Defined.

Global Instance JSValue_eq_dec : EqDecision JSValue.
Proof. solve_decision. Defined.

Global Instance spec_float_countable : Countable spec_float.
Proof.
  refine (inj_countable'
    (fun x => match x with
              | S754_zero s => inl (inl s)
              | S754_infinity s => inl (inr s)
              | S754_nan => inr (inl ())
              | S754_finite s m e => inr (inr (s, m, e))
              end)
    (fun y => match y with
              | inl (inl s) => S754_zero s
              | inl (inr s) => S754_infinity s
              | inr (inl _) => S754_nan
              | inr (inr (s, m, e)) => S754_finite s m e
              end) _).
  intros []; reflexivity.
Defined.

Global Instance JSValue_countable : Countable JSValue.
Proof.
  refine (inj_countable'
    (fun v => match v with
              | JUndefined => inl (inl true)
              | JNull => inl (inl false)
              | JBool b => inl (inr b)
              | JNum x => inr (inl x)
              | JStr s => inr (inr s)
              end)
    (fun y => match y with
              | inl (inl true) => JUndefined
              | inl (inl false) => JNull
              | inl (inr b) => JBool b
              | inr (inl x) => JNum x
              | inr (inr s) => JStr s
              end) _).
  intros []; reflexivity.
Defined.

(** ** Persisted series *)

(** A row is a JavaScript array; a series is an array of rows. *)
Abbreviation Row := (list JSValue) (only parsing).
Abbreviation Series := (list (list JSValue)) (only parsing).

(** [row[idx]]: [undefined] past the end. *)
Definition arrayGet (row : Row) (idx : nat) : JSValue := default JUndefined (row !! idx).

(** The files [public/data/<id>/realtime.json], keyed by stock id, holding
    the decoded array of rows; [writes] records each [writeFileSync], oldest
    first.  A missing or undecodable file has no entry. *)
Record Store : Type := mkStore {
  files : gmap string Series;
  writes : list string
}.

(** [function loadExistingData(stockId)]. *)
Definition loadExistingData (stockId : string) (st : Store) : Series :=
  default [] (files st !! stockId).

(** What [JSON.parse(JSON.stringify(v))] gives back for a scalar in an array:
    [undefined], NaN and the infinities are written as [null], and the
    negative zero as [0]. *)
Definition jsonValue (v : JSValue) : JSValue :=
  match v with
  | JUndefined => JNull
  | JNum (S754_zero _) => JNum (S754_zero false)
  | JNum (S754_finite s m e) => JNum (S754_finite s m e)
  | JNum _ => JNull
  | _ => v
  end.

(** [function saveData(stockId, data)]: the file is overwritten with the
    JSON text of [data]. *)
Definition saveData (stockId : string) (data : Series) (st : Store) : Store :=
  {| files := <[stockId := map (map jsonValue) data]> (files st);
     writes := (writes st ++ [stockId])%list |}.

(** ** Reconciliation *)

(** The callback of [newRow.map((val, idx) => ...)]. *)
Definition resolve (existing val : JSValue) : JSValue :=
  if strictEq val (JStr "-") && negb (strictEq existing (JStr "-")) then existing
  else val.

Definition updatedRow (existingRow newRow : Row) : Row :=
  imap (fun idx val => resolve (arrayGet existingRow idx) val) newRow.

(** The reconciliation step shared by [processStock] (lines 181-199) and
    [processBatchData] (lines 486-504); [todayDate] is [newRow[0]]. *)
Definition merge (existingData : Series) (newRow : Row) : Series :=
  let todayDate := arrayGet newRow 0 in
  match list_find (fun row => strictEq (arrayGet row 0) todayDate = true) existingData with
  | None => (existingData ++ [newRow])%list
  | Some (existingIdx, existingRow) =>
      <[existingIdx := updatedRow existingRow newRow]> existingData
  end.

(** [[todayDate, parseValue(data.o), ..., parseValue(data.v)]]. *)
Definition buildNewRow (todayDate : JSValue) (data : RawQuote) : Row :=
  [todayDate; parseValue (data_o data); parseValue (data_h data);
   parseValue (data_l data); parseValue (data_z data); parseValue (data_v data)].

(** [bestDataMap.get(key)]: an absent key gives [undefined], a key set at
    initialisation gives [null]; both are [None]. *)
Definition mapGet (m : gmap JSValue (option RawQuote)) (key : JSValue) : option RawQuote :=
  mjoin (m !! key).

(** [function processBatchData(stocks, bestDataMap)].  An exception leaves
    the loop; the store holds what was written before it. *)
Fixpoint processBatchData (stocks : list Stock) (bestDataMap : gmap JSValue (option RawQuote))
    (st : Store) : Store * completion unit :=
  match stocks with
  | [] => (st, Normal ())
  | stock :: rest =>
      match mapGet bestDataMap (JStr (stock_id stock)) with
      | None => processBatchData rest bestDataMap st
      | Some data =>
          match parseDate data with
          | Throw e => (st, Throw e)
          | Normal todayDate =>
              if negb (truthy todayDate) then processBatchData rest bestDataMap st
              else
                let existingData := loadExistingData (stock_id stock) st in
                let newRow := buildNewRow todayDate data in
                processBatchData rest bestDataMap
                  (saveData (stock_id stock) (merge existingData newRow) st)
          end
      end
  end.

(** ** The provider and the clock *)

Inductive Event : Type :=
  | EvFetch (response : list RawQuote)
  | EvSleep (ms : Z).

(** [now] is what [Date.now()] returns; [feed] is what the provider will
    answer to the coming requests, each with the time the request takes (a
    failed or timed-out request answers the empty array); [events] records
    the requests and sleeps performed, oldest first. *)
Record World : Type := mkWorld {
  now : Z;
  feed : list (N * list RawQuote);
  events : list Event
}.

(** [await axios.get(url)] followed by [res.data?.msgArray || []], the
    [catch] answering [[]]. *)
Definition fetchBatchStockData (stocks : list Stock) (w : World) : list RawQuote * World :=
  match feed w with
  | [] => ([], {| now := now w; feed := []; events := (events w ++ [EvFetch []])%list |})
  | (latency, msgArray) :: rest =>
      (msgArray, {| now := now w + Z.of_N latency; feed := rest;
                    events := (events w ++ [EvFetch msgArray])%list |})
  end.

(** [await delay(ms)]. *)
Definition delay (ms : Z) (w : World) : World :=
  {| now := now w + ms; feed := feed w; events := (events w ++ [EvSleep ms])%list |}.

(** ** Batch poller *)

Record PollState : Type := mkPoll {
  bestDataMap : gmap JSValue (option RawQuote);
  validStockIds : gset JSValue
}.

(** The body of [for (const data of dataArray)]. *)
Definition foldRecord (ps : PollState) (data : RawQuote) : PollState :=
  let stockId := data_c data in
  if negb (truthy stockId) then ps
  else if hasValidPrice data then
    {| bestDataMap := <[stockId := Some data]> (bestDataMap ps);
       validStockIds := {[stockId]} ∪ validStockIds ps |}
  else match mapGet (bestDataMap ps) stockId with
       | None => {| bestDataMap := <[stockId := Some data]> (bestDataMap ps);
                    validStockIds := validStockIds ps |}
       | Some _ => ps
       end.

(** [stocks.forEach(stock => bestDataMap.set(stock.id, null))] and the empty
    set of satisfied ids. *)
Definition initPoll (stocks : list Stock) : PollState :=
  {| bestDataMap := foldl (fun m stock => <[JStr (stock_id stock) := None]> m) ∅ stocks;
     validStockIds := ∅ |}.

(** The [while] loop of [fetchBatchWithRetry]; [None] when [fuel] iterations
    do not reach the end of the loop. *)
Fixpoint batchLoop (fuel : nat) (stocks : list Stock) (startTime : Z)
    (ps : PollState) (w : World) : option (PollState * World) :=
  if now w - startTime <? BATCH_FETCH_TIME then
    match fuel with
    | O => None
    | S fuel' =>
        let '(dataArray, w) := fetchBatchStockData stocks w in
        let ps := if (0 <? length dataArray)%nat then foldl foldRecord ps dataArray else ps in
        if (size (validStockIds ps) =? length stocks)%nat then Some (ps, w)
        else
          let w := if now w - startTime <? BATCH_FETCH_TIME then delay RETRY_INTERVAL w else w in
          batchLoop fuel' stocks startTime ps w
    end
  else Some (ps, w).

(** [async function fetchBatchWithRetry(stocks)].  Every iteration that does
    not leave the loop sleeps [RETRY_INTERVAL] while the deadline is not
    reached, so ten iterations exhaust [BATCH_FETCH_TIME]. *)
Definition fetchBatchWithRetry (stocks : list Stock) (w : World)
    : option (gmap JSValue (option RawQuote) * World) :=
  let startTime := now w in
  match batchLoop 10 stocks startTime (initPoll stocks) w with
  | Some (ps, w) => Some (bestDataMap ps, w)
  | None => None
  end.

(** ** The per-symbol script (first half of the file) *)

(** [function fetchStockData(stock)]: [res.data?.msgArray?.[0] || null]. *)
Definition fetchStockData (stock : Stock) (w : World) : option RawQuote * World :=
  let '(msgArray, w) := fetchBatchStockData [stock] w in
  (head msgArray, w).

(** The [while] loop of [fetchWithRetry]; [None] when [fuel] iterations do
    not reach the end of the loop. *)
Fixpoint retryLoop (fuel : nat) (stock : Stock) (startTime : Z)
    (lastValidData : option RawQuote) (w : World) : option (option RawQuote * World) :=
  if now w - startTime <? MAX_RETRY_TIME then
    match fuel with
    | O => None
    | S fuel' =>
        let '(data, w) := fetchStockData stock w in
        match data with
        | Some data =>
            if hasValidPrice data then Some (Some data, w)
            else retryLoop fuel' stock startTime (Some data) (delay RETRY_INTERVAL w)
        | None => retryLoop fuel' stock startTime lastValidData (delay RETRY_INTERVAL w)
        end
    end
  else Some (lastValidData, w).

(** [async function fetchWithRetry(stock)]. *)
Definition fetchWithRetry (stock : Stock) (w : World) : option (option RawQuote * World) :=
  retryLoop 10 stock (now w) None w.

(** [async function processStock(stock)]; its date and value parsing are the
    statements of [parseDate] and [parseValue], written in line. *)
Definition processStock (stock : Stock) (w : World) (st : Store)
    : option (World * Store * completion unit) :=
  let existingData := loadExistingData (stock_id stock) st in
  match fetchWithRetry stock w with
  | None => None
  | Some (None, w) => Some (w, st, Normal ())
  | Some (Some todayData, w) =>
      match parseDate todayData with
      | Throw e => Some (w, st, Throw e)
      | Normal todayDate =>
          if negb (truthy todayDate) then Some (w, st, Normal ())
          else
            let newRow := buildNewRow todayDate todayData in
            Some (w, saveData (stock_id stock) (merge existingData newRow) st, Normal ())
      end
  end.

(** ** The batch driver *)

Fixpoint chunkLoop {A} (fuel : nat) (array : list A) (size : nat) : list (list A) :=
  match fuel with
  | O => []
  | S fuel' =>
      match array with
      | [] => []
      | _ => take size array :: chunkLoop fuel' (drop size array) size
      end
  end.

(** [function chunkArray(array, size)], for [size >= 1]. *)
Definition chunkArray {A} (array : list A) (size : nat) : list (list A) :=
  chunkLoop (length array) array size.

(** [function loadStockList()] applied to the decoded [stock_list.json]. *)
Definition loadStockList (stockList : list Stock) : list Stock :=
  filter (fun stock => stock_id stock ∈ TARGET_STOCK_IDS) stockList.

(** The [for] loop of [main] over the batches. *)
Fixpoint runBatches (batches : list (list Stock)) (w : World) (st : Store)
    : option (World * Store * completion unit) :=
  match batches with
  | [] => Some (w, st, Normal ())
  | batch :: rest =>
      match fetchBatchWithRetry batch w with
      | None => None
      | Some (bestDataMap, w) =>
          match processBatchData batch bestDataMap st with
          | (st, Normal _) => runBatches rest w st
          | (st, Throw e) => Some (w, st, Throw e)
          end
      end
  end.

(** One batch of [main]: poll, then reconcile and save. *)
Definition runBatch (batch : list Stock) (w : World) (st : Store)
    : option (World * Store * completion unit) :=
  match fetchBatchWithRetry batch w with
  | None => None
  | Some (bestDataMap, w) =>
      let '(st, r) := processBatchData batch bestDataMap st in Some (w, st, r)
  end.

(** [main().catch(error => process.exit(1))]: the exit status is 1 when
    [main] throws and 0 otherwise. *)
Definition main (stockList : list Stock) (w : World) (st : Store)
    : option (World * Store * Z) :=
  let stocks := loadStockList stockList in
  let stocks := if (length stocks =? 0)%nat
                then map (fun id => mkStock id id "twse") TARGET_STOCK_IDS
                else stocks in
  let batches := chunkArray stocks BATCH_SIZE in
  match runBatches batches w st with
  | None => None
  | Some (w, st, Normal _) => Some (w, st, 0)
  | Some (w, st, Throw _) => Some (w, st, 1)
  end.

(** ** The series invariant *)

(** [row[0]], the key [findIndex] compares. *)
Definition rowDate (row : Row) : JSValue := arrayGet row 0.

(** No two of the values are [===]. *)
Fixpoint distinctDates (dates : list JSValue) : bool :=
  match dates with
  | [] => true
  | x :: rest => forallb (fun y => negb (strictEq x y)) rest && distinctDates rest
  end.

(** At most one row per date. *)
Definition uniqueDates (series : Series) : bool := distinctDates (map rowDate series).

(** ** Predicates of the statements *)

Definition allDigits (s : string) : bool := forallb isDigit (chars s).

(** A date of exactly eight digits. *)
Definition isEightDigits (v : JSValue) : bool :=
  match v with
  | JStr s => (String.length s =? 8)%nat && allDigits s
  | _ => false
  end.

(** A date of one to eight digits. *)
Definition isDateKey (v : JSValue) : bool :=
  match v with
  | JStr s => (1 <=? String.length s)%nat && (String.length s <=? 8)%nat && allDigits s
  | _ => false
  end.

(** The close field parses, with [parseValue], to a finite number. *)
Definition closeParsesFinite (data : RawQuote) : bool :=
  match parseValue (data_z data) with
  | JNum x => isFiniteNum x
  | _ => false
  end.

(** Every persisted row has a date of one to eight digits. *)
Definition datedStore (st : Store) : Prop :=
  forall (stockId : string) (series : list (list JSValue)) (row : list JSValue),
    files st !! stockId = Some series -> row ∈ series -> isDateKey (rowDate row) = true.

(** ** Sample records *)

(** A record with symbol code, close, date and volume, as strings. *)
Definition quote (c z d v : string) : RawQuote :=
  mkQuote (JStr c) (JStr z) (JStr d) JUndefined JUndefined JUndefined JUndefined (JStr v).

(** A record with symbol code, close and timestamp, and no date. *)
Definition quoteAt (c z tlong : string) : RawQuote :=
  mkQuote (JStr c) (JStr z) JUndefined (JStr tlong) JUndefined JUndefined JUndefined JUndefined.

Definition emptyStore : Store := {| files := ∅; writes := [] |}.

(** ** Reading the event log *)

(** The records the provider delivered, in order of arrival. *)
Definition observed (evs : list Event) : list RawQuote :=
  concat (map (fun ev => match ev with EvFetch response => response | EvSleep _ => [] end) evs).

Definition isFetch (ev : Event) : bool :=
  match ev with EvFetch _ => true | EvSleep _ => false end.

Definition countFetches (evs : list Event) : nat := length (List.filter isFetch evs).
Definition countSleeps (evs : list Event) : nat :=
  length (List.filter (fun ev => negb (isFetch ev)) evs).

(** The file names written since [st]. *)
Definition newWrites (st st' : Store) : list string := drop (length (writes st)) (writes st').

(** The requests and the sleeps of a run of the batch poller, and the clock at
    its end. *)
Definition pollSummary (r : option (gmap JSValue (option RawQuote) * World))
    : option (nat * nat * Z) :=
  match r with
  | Some (_, w') => Some (countFetches (events w'), countSleeps (events w'), now w')
  | None => None
  end.

(** A tick that brings nothing, or one record of the symbol with no valid
    price. *)
Definition placeholderTick (stockId : string) (tick : N * list RawQuote) : Prop :=
  snd tick = [] \/ exists r, snd tick = [r] /\ data_c r = JStr stockId /\ hasValidPrice r = false.

(** No record of the symbol in the feed has a valid price. *)
Definition neverValid (stockId : string) (ticks : list (N * list RawQuote)) : Prop :=
  Forall (fun tick => Forall (fun d => data_c d = JStr stockId -> hasValidPrice d = false)
                             (snd tick)) ticks.

(** The statement of the specification on unresolved symbols: a symbol of the
    batch that ends with no best row, or for which no valid price was
    observed, keeps its file. *)
Definition skipped_when_unresolved : Prop :=
  forall (batch : list Stock) (w : World) (st : Store) (stock : Stock),
    stock ∈ batch ->
    (match fetchBatchWithRetry batch w with
     | Some (bestDataMap, _) => mapGet bestDataMap (JStr (stock_id stock)) = None
     | None => False
     end
     \/ neverValid (stock_id stock) (feed w)) ->
    match runBatch batch w st with
    | Some (_, st', _) =>
        files st' !! stock_id stock = files st !! stock_id stock
        /\ stock_id stock ∉ newWrites st st'
    | None => False
    end.

(** The statement of the specification on valid prices. *)
Definition valid_iff_finite : Prop :=
  forall data : RawQuote, hasValidPrice data = true <-> closeParsesFinite data = true.

(** The files, the writes and the exit status of a run of [main]. *)
Definition runSummary (r : option (World * Store * Z))
    : option (gmap string (list (list JSValue)) * list string * Z) :=
  match r with
  | Some (_, st, status) => Some (files st, writes st, status)
  | None => None
  end.

(** The statement of the specification on dates: whatever the batch, a
    row persisted into the empty store has a date of exactly eight digits. *)
Definition only_eight_digit_dates : Prop :=
  forall (stocks : list Stock) (bestDataMap : gmap JSValue (option RawQuote))
         (stockId : string) (series : list (list JSValue)) (row : list JSValue),
    files (fst (processBatchData stocks bestDataMap emptyStore)) !! stockId = Some series ->
    row ∈ series -> isEightDigits (rowDate row) = true.

(** ** Further predicates *)

(** Every persisted series has at most one row per date. *)
Definition uniqueStore (st : Store) : Prop :=
  forall (stockId : string) (series : list (list JSValue)),
    files st !! stockId = Some series -> uniqueDates series = true.

(** The file of [stockId] holds a row of date [date] with six slots. *)
Definition hasRowOf (stockId date : string) (st : Store) : Prop :=
  exists (series : list (list JSValue)) (row : list JSValue),
    files st !! stockId = Some series /\ row ∈ series
    /\ rowDate row = JStr date /\ length row = 6%nat.

(** The first record of each answer, [msgArray[0]], for the answers that have
    one, oldest first: what the per-symbol script looks at. *)
Definition heads (evs : list Event) : list RawQuote :=
  omap (fun ev => match ev with EvFetch response => head response | EvSleep _ => None end) evs.

(** The best row of [key] that a list of records leaves in an empty map: the
    last record of the symbol with a valid price, or else the first record of
    the symbol. *)
Definition bestOf (key : JSValue) (records : list RawQuote) : option RawQuote :=
  match last (filter (fun d => data_c d = key /\ hasValidPrice d = true) records) with
  | Some d => Some d
  | None => head (filter (fun d => data_c d = key) records)
  end.

(** ** The per-symbol driver *)

(** The [for] loop of the [main] of the per-symbol script. *)
Fixpoint processStocks (stocks : list Stock) (w : World) (st : Store)
    : option (World * Store * completion unit) :=
  match stocks with
  | [] => Some (w, st, Normal ())
  | stock :: rest =>
      match processStock stock w st with
      | None => None
      | Some (w, st, Normal _) => processStocks rest w st
      | Some (w, st, Throw e) => Some (w, st, Throw e)
      end
  end.

(** [main] of the per-symbol script (lines 206-242), with its
    [main().catch(error => process.exit(1))]. *)
Definition mainPerSymbol (stockList : list Stock) (w : World) (st : Store)
    : option (World * Store * Z) :=
  let stocks := loadStockList stockList in
  let stocks := if (length stocks =? 0)%nat
                then map (fun id => mkStock id id "twse") TARGET_STOCK_IDS
                else stocks in
  match processStocks stocks w st with
  | None => None
  | Some (w, st, Normal _) => Some (w, st, 0)
  | Some (w, st, Throw _) => Some (w, st, 1)
  end.

(** ** Records whose date can be read *)



(** The symbols [processBatchData] saves, in order: those of the batch that
    have a best row with a date, up to the first best row on which
    [parseDate] throws.  The list depends on the batch and the best rows, not
    on the store. *)
Fixpoint writtenIds (stocks : list Stock) (bestDataMap : gmap JSValue (option RawQuote))
    : list string :=
  match stocks with
  | [] => []
  | stock :: rest =>
      match mapGet bestDataMap (JStr (stock_id stock)) with
      | None => writtenIds rest bestDataMap
      | Some data =>
          match parseDate data with
          | Throw _ => []
          | Normal todayDate =>
              if truthy todayDate then stock_id stock :: writtenIds rest bestDataMap
              else writtenIds rest bestDataMap
          end
      end
  end.

(** The file of [stockId] is what reconciling it with the best row of the
    symbol would write. *)
Definition settledAt (bestDataMap : gmap JSValue (option RawQuote)) (st : Store)
    (stockId : string) : Prop :=
  forall (data : RawQuote) (date : string),
    mapGet bestDataMap (JStr stockId) = Some data ->
    parseDate data = Normal (JStr date) ->
    files st !! stockId
    = Some (map (map jsonValue)
              (merge (loadExistingData stockId st) (buildNewRow (JStr date) data))).

(** * Properties *)

(** ** Sanity checks of the embedded built-ins *)

Example Number_tenth : Number (JStr "0.1") = S754_finite false 7205759403792794 (-56).
Proof. vm_compute. reflexivity. Qed.
Example Number_price : Number (JStr "1085.0000") = numOfZ 1085.
Proof. vm_compute. reflexivity. Qed.
Example Number_dash : Number (JStr "-") = S754_nan.
Proof. vm_compute. reflexivity. Qed.
Example Number_empty : Number (JStr "") = S754_zero false.
Proof. vm_compute. reflexivity. Qed.
Example Number_inf : Number (JStr "Infinity") = S754_infinity false.
Proof. vm_compute. reflexivity. Qed.
Example Number_over : Number (JStr "1e400") = S754_infinity false.
Proof. vm_compute. reflexivity. Qed.
Example Number_hex : Number (JStr " 0x1F ") = numOfZ 31.
Proof. vm_compute. reflexivity. Qed.
Example Number_exp : Number (JStr "-12.5e-1") = S754_finite true 5629499534213120 (-52).
Proof. vm_compute. reflexivity. Qed.
Example Number_junk : Number (JStr "12abc") = S754_nan.
Proof. vm_compute. reflexivity. Qed.
Example toISOString_epoch : toISOString 0 = "1970-01-01T00:00:00.000Z".
Proof. vm_compute. reflexivity. Qed.
Example toISOString_session : toISOString 1733380200123 = "2024-12-05T06:30:00.123Z".
Proof. vm_compute. reflexivity. Qed.
Example toISOString_leap : toISOString 951782400000 = "2000-02-29T00:00:00.000Z".
Proof. vm_compute. reflexivity. Qed.
Example toISOString_before : toISOString (-1) = "1969-12-31T23:59:59.999Z".
Proof. vm_compute. reflexivity. Qed.
Example toISOString_max : toISOString 8640000000000000 = "+275760-09-13T00:00:00.000Z".
Proof. vm_compute. reflexivity. Qed.
Example toISOString_min : toISOString (-8640000000000000) = "-271821-04-20T00:00:00.000Z".
Proof. vm_compute. reflexivity. Qed.
Example parseDate_plain :
  parseDate (mkQuote (JStr "2330") (JStr "100") (JStr "20251205") JUndefined
                     JUndefined JUndefined JUndefined JUndefined)
  = Normal (JStr "20251205").
Proof. vm_compute. reflexivity. Qed.
Example parseDate_slashes :
  parseDate (mkQuote (JStr "2330") (JStr "100") (JStr "2025/12/05") JUndefined
                     JUndefined JUndefined JUndefined JUndefined)
  = Normal (JStr "20251205").
Proof. vm_compute. reflexivity. Qed.
Example parseDate_tlong :
  parseDate (mkQuote (JStr "2330") (JStr "100") JUndefined (JStr "1733380200000")
                     JUndefined JUndefined JUndefined JUndefined)
  = Normal (JStr "20241205").
Proof. vm_compute. reflexivity. Qed.
Example parseDate_none :
  parseDate (mkQuote (JStr "2330") (JStr "100") JUndefined JUndefined
                     JUndefined JUndefined JUndefined JUndefined)
  = Normal JNull.
Proof. vm_compute. reflexivity. Qed.

(** ** The scenarios of the specification *)

Example scenario_close_preserved :
  merge [[JStr "20250101"; JNum (numOfZ 100); JNum (numOfZ 105); JNum (numOfZ 99);
          JNum (numOfZ 104); JNum (numOfZ 5000)]]
        (buildNewRow (JStr "20250101") (quote "2330" "-" "20250101" "6000"))
  = [[JStr "20250101"; JNum (numOfZ 100); JNum (numOfZ 105); JNum (numOfZ 99);
      JNum (numOfZ 104); JNum (numOfZ 6000)]].
Proof. vm_compute. reflexivity. Qed.

Example scenario_first_row :
  merge [] (buildNewRow (JStr "20250102")
              (mkQuote (JStr "2330") (JStr "104") (JStr "20250102") JUndefined
                       (JStr "100") (JStr "105") (JStr "99") (JStr "5000")))
  = [[JStr "20250102"; JNum (numOfZ 100); JNum (numOfZ 105); JNum (numOfZ 99);
      JNum (numOfZ 104); JNum (numOfZ 5000)]].
Proof. vm_compute. reflexivity. Qed.

(** ** Strict equality against a string *)

Lemma strictEq_str_r (v : JSValue) (s : string) : strictEq v (JStr s) = true <-> v = JStr s.
Proof.
  destruct v; simpl; split; try discriminate; intros H.
  - apply String.eqb_eq in H. by subst.
  - injection H as ->. apply String.eqb_refl.
Qed.

Lemma strictEq_str_l (v : JSValue) (s : string) : strictEq (JStr s) v = true <-> v = JStr s.
Proof.
  destruct v; simpl; split; try discriminate; intros H.
  - apply String.eqb_eq in H. by subst.
  - injection H as ->. apply String.eqb_refl.
Qed.

Lemma strictEq_Missing_false (v : JSValue) : strictEq v (JStr "-") = false <-> v <> Missing.
Proof.
  unfold Missing. rewrite <- strictEq_str_r. destruct (strictEq v (JStr "-")); split; congruence.
Qed.

(** ** The preference rule *)

Lemma resolve_keep (e n : JSValue) : n = Missing -> e <> Missing -> resolve e n = e.
Proof.
  intros -> He. unfold resolve. apply strictEq_Missing_false in He. by rewrite He.
Qed.

Lemma resolve_take (e n : JSValue) : ~ (n = Missing /\ e <> Missing) -> resolve e n = n.
Proof.
  intros H. unfold resolve.
  destruct (strictEq n (JStr "-")) eqn:Hn; [|done].
  destruct (strictEq e (JStr "-")) eqn:He; [done|].
  exfalso. apply H. split; [by apply strictEq_str_r | by apply strictEq_Missing_false].
Qed.

Lemma resolve_same (x : JSValue) : resolve x x = x.
Proof. unfold resolve. by destruct (strictEq x (JStr "-")). Qed.

Lemma resolve_idem (e n : JSValue) : resolve (resolve e n) n = resolve e n.
Proof.
  unfold resolve.
  destruct (strictEq n (JStr "-")) eqn:Hn; simpl; [|done].
  destruct (strictEq e (JStr "-")) eqn:He; simpl; [by rewrite Hn | by rewrite He].
Qed.

Lemma arrayGet_updatedRow (existingRow newRow : Row) (idx : nat) :
  (idx < length newRow)%nat ->
  arrayGet (updatedRow existingRow newRow) idx
  = resolve (arrayGet existingRow idx) (arrayGet newRow idx).
Proof.
  intros Hlt. destruct (lookup_lt_is_Some_2 newRow idx Hlt) as [x Hx].
  assert (H : updatedRow existingRow newRow !! idx = Some (resolve (arrayGet existingRow idx) x)).
  { unfold updatedRow. by rewrite list_lookup_imap, Hx. }
  replace (arrayGet newRow idx) with x by (unfold arrayGet; by rewrite Hx).
  unfold arrayGet at 1. by rewrite H.
Qed.

Lemma updatedRow_length (existingRow newRow : Row) :
  length (updatedRow existingRow newRow) = length newRow.
Proof. apply length_imap. Qed.

(** A row already reconciled with [newRow] is left as it is by a second
    reconciliation. *)
Lemma updatedRow_idem (existingRow newRow : Row) :
  updatedRow (updatedRow existingRow newRow) newRow = updatedRow existingRow newRow.
Proof.
  apply list_eq. intros i. unfold updatedRow at 1 3. rewrite !list_lookup_imap.
  destruct (newRow !! i) as [n|] eqn:Hn; [|done]. simpl. f_equal.
  rewrite arrayGet_updatedRow by (by eapply lookup_lt_Some).
  replace (arrayGet newRow i) with n by (unfold arrayGet; by rewrite Hn).
  apply resolve_idem.
Qed.

Lemma updatedRow_same (newRow : Row) : updatedRow newRow newRow = newRow.
Proof.
  apply list_eq. intros i. unfold updatedRow. rewrite list_lookup_imap.
  destruct (newRow !! i) as [n|] eqn:Hn; [|done]. simpl. f_equal.
  unfold arrayGet. rewrite Hn. apply resolve_same.
Qed.

(** The date of the reconciled row is the date of the new row. *)
Lemma updatedRow_date (existingRow : Row) (date : string) (slots : list JSValue) :
  arrayGet existingRow 0 = JStr date ->
  arrayGet (updatedRow existingRow (JStr date :: slots)) 0 = JStr date.
Proof.
  intros He. rewrite arrayGet_updatedRow by (simpl; lia).
  rewrite He. apply resolve_same.
Qed.

(** The two cases of [merge]. *)
Lemma merge_append (existingData : Series) (newRow : Row) :
  list_find (fun row => strictEq (arrayGet row 0) (arrayGet newRow 0) = true) existingData = None ->
  merge existingData newRow = (existingData ++ [newRow])%list.
Proof. intros H. unfold merge. by rewrite H. Qed.

Lemma merge_update (existingData : Series) (newRow : Row) (existingIdx : nat) (existingRow : Row) :
  list_find (fun row => strictEq (arrayGet row 0) (arrayGet newRow 0) = true) existingData
  = Some (existingIdx, existingRow) ->
  merge existingData newRow = <[existingIdx := updatedRow existingRow newRow]> existingData.
Proof. intros H. unfold merge. by rewrite H. Qed.

(** C1.  When the series holds a row with the date of the new row, the row
    [merge] leaves at that position has, in each of the five numeric slots
    (indices 1 to 5), the value [resolve e n] of the existing slot value [e]
    and the new slot value [n]: the existing value when the new one is the
    placeholder and the existing one is not, the new value in every other
    case; where the two values differ the result is the existing one exactly
    in the first case.  This is the code of [processBatchData] and of
    [processStock]. *)
Theorem C1_preference_law (existingData : Series) (todayDate : string)
    (o h l z v : JSValue) (existingIdx : nat) (existingRow : Row) (idx : nat) :
  let newRow := [JStr todayDate; o; h; l; z; v] in
  list_find (fun row => strictEq (arrayGet row 0) (JStr todayDate) = true) existingData
    = Some (existingIdx, existingRow) ->
  (1 <= idx <= 5)%nat ->
  let e := arrayGet existingRow idx in
  let n := arrayGet newRow idx in
  let r := arrayGet (default [] (merge existingData newRow !! existingIdx)) idx in
  r = resolve e n
  /\ (n = Missing /\ e <> Missing -> r = e)
  /\ (~ (n = Missing /\ e <> Missing) -> r = n)
  /\ (e <> n -> (r = e <-> n = Missing /\ e <> Missing)).
Proof.
  intros newRow Hfind Hidx e n r.
  assert (Hr : r = resolve e n).
  { subst r. rewrite (merge_update _ _ existingIdx existingRow) by exact Hfind.
    apply list_find_Some in Hfind as (Hlook & _ & _).
    rewrite list_lookup_insert_eq by (by eapply lookup_lt_Some). simpl.
    apply arrayGet_updatedRow. simpl. lia. }
  split; [exact Hr|]. rewrite Hr. split; [|split].
  - intros [Hn He]. by apply resolve_keep.
  - apply resolve_take.
  - intros Hne. split.
    + intros Heq. destruct (decide (n = Missing /\ e <> Missing)) as [|Hc]; [done|].
      rewrite (resolve_take _ _ Hc) in Heq. congruence.
    + intros [Hn He]. by apply resolve_keep.
Qed.

Lemma C1_preference_law_witness :
  arrayGet (default [] (merge [[JStr "20250101"; JNum (numOfZ 100); JNum (numOfZ 105);
                                JNum (numOfZ 99); JNum (numOfZ 104); JNum (numOfZ 5000)]]
                              [JStr "20250101"; Missing; Missing; Missing; Missing;
                               JNum (numOfZ 6000)] !! 0%nat)) 4
  = JNum (numOfZ 104).
Proof.
  pose proof (C1_preference_law
    [[JStr "20250101"; JNum (numOfZ 100); JNum (numOfZ 105);
      JNum (numOfZ 99); JNum (numOfZ 104); JNum (numOfZ 5000)]]
    "20250101" Missing Missing Missing Missing (JNum (numOfZ 6000)) 0
    [JStr "20250101"; JNum (numOfZ 100); JNum (numOfZ 105);
      JNum (numOfZ 99); JNum (numOfZ 104); JNum (numOfZ 5000)] 4
    eq_refl ltac:(lia)) as (_ & Hkeep & _).
  apply Hkeep. split; [reflexivity | discriminate].
Defined.

(** ** Idempotence and the dedup invariant of [merge] *)

Lemma merge_find_again (existingData : Series) (date : string) (slots : list JSValue)
    (existingIdx : nat) (existingRow : Row) :
  let newRow := JStr date :: slots in
  let P := fun row : Row => strictEq (arrayGet row 0) (arrayGet newRow 0) = true in
  list_find P existingData = Some (existingIdx, existingRow) ->
  list_find P (<[existingIdx := updatedRow existingRow newRow]> existingData)
  = Some (existingIdx, updatedRow existingRow newRow).
Proof.
  intros newRow P (Hl & HP & Hleast)%list_find_Some.
  apply list_find_Some. split_and!.
  - apply list_lookup_insert_eq. by eapply lookup_lt_Some.
  - unfold P in *. change (arrayGet newRow 0) with (JStr date) in *.
    apply strictEq_str_r in HP. apply strictEq_str_r. by apply updatedRow_date.
  - intros j y Hj Hlt. rewrite list_lookup_insert_ne in Hj by lia. by eapply Hleast.
Qed.

(** C5.  Merging the same row (a date string followed by its slots) twice in
    a row gives the series that merging it once gives. *)
Theorem C5_merge_idempotent (existingData : Series) (date : string) (slots : list JSValue) :
  let newRow := JStr date :: slots in
  merge (merge existingData newRow) newRow = merge existingData newRow.
Proof.
  intros newRow.
  set (P := fun row : Row => strictEq (arrayGet row 0) (arrayGet newRow 0) = true).
  destruct (list_find P existingData) as [[i er]|] eqn:Hf.
  - rewrite (merge_update _ _ i er Hf).
    rewrite (merge_update _ _ i (updatedRow er newRow)) by (by apply merge_find_again).
    by rewrite list_insert_insert_eq, updatedRow_idem.
  - rewrite (merge_append _ _ Hf).
    assert (Hf' : list_find P (existingData ++ [newRow]) = Some (length existingData, newRow)).
    { rewrite list_find_app_r by exact Hf. simpl.
      destruct (decide (P newRow)) as [|Hn]; [done|].
      exfalso. apply Hn. unfold P. by apply strictEq_str_r. }
    rewrite (merge_update _ _ _ _ Hf'), updatedRow_same.
    apply list_insert_id. rewrite lookup_app_r by lia. by rewrite Nat.sub_diag.
Qed.

Lemma distinctDates_snoc (dates : list JSValue) (y : JSValue) :
  distinctDates (dates ++ [y])
  = distinctDates dates && forallb (fun x => negb (strictEq x y)) dates.
Proof.
  induction dates as [|x rest IH]; [done|]. simpl.
  rewrite forallb_app, IH. simpl.
  destruct (forallb _ rest), (distinctDates rest), (strictEq x y), (forallb _ rest); done.
Qed.

(** The dates of the merged series: those of the series, followed by the new
    date when no row had it. *)
Lemma merge_dates (existingData : Series) (date : string) (slots : list JSValue) :
  let newRow := JStr date :: slots in
  (map rowDate (merge existingData newRow) = map rowDate existingData)
  \/ (map rowDate (merge existingData newRow) = (map rowDate existingData ++ [JStr date])%list
      /\ forallb (fun x => negb (strictEq x (JStr date))) (map rowDate existingData) = true).
Proof.
  intros newRow.
  set (P := fun row : Row => strictEq (arrayGet row 0) (arrayGet newRow 0) = true).
  destruct (list_find P existingData) as [[i er]|] eqn:Hf.
  - left. rewrite (merge_update _ _ i er Hf).
    apply list_find_Some in Hf as (Hl & HP & _).
    change (map rowDate) with (fmap (M:=list) rowDate).
    rewrite list_fmap_insert. apply list_insert_id.
    rewrite list_lookup_fmap, Hl. simpl. f_equal.
    unfold P in HP. change (arrayGet newRow 0) with (JStr date) in HP.
    apply strictEq_str_r in HP. unfold rowDate. rewrite HP.
    symmetry. by apply updatedRow_date.
  - right. rewrite (merge_append _ _ Hf). split.
    + by rewrite map_app.
    + apply list_find_None in Hf. apply forallb_forall. intros x Hx.
      apply in_map_iff in Hx as (row & <- & Hrow).
      rewrite Forall_forall in Hf. apply list_elem_of_In in Hrow.
      specialize (Hf row Hrow). unfold P in Hf.
      change (arrayGet newRow 0) with (JStr date) in Hf. unfold rowDate.
      by destruct (strictEq (arrayGet row 0) (JStr date)).
Qed.

Lemma merge_keeps_unique (existingData : Series) (date : string) (slots : list JSValue) :
  uniqueDates existingData = true -> uniqueDates (merge existingData (JStr date :: slots)) = true.
Proof.
  intros Hu. unfold uniqueDates in *.
  destruct (merge_dates existingData date slots) as [-> | [-> Hfresh]]; [done|].
  by rewrite distinctDates_snoc, Hu, Hfresh.
Qed.

(** What [uniqueDates] says for dates that are strings: two positions
    holding rows of one date are one position. *)
Lemma distinctDates_string (dates : list JSValue) (i j : nat) (date : string) :
  distinctDates dates = true ->
  dates !! i = Some (JStr date) -> dates !! j = Some (JStr date) -> i = j.
Proof.
  revert i j. induction dates as [|x rest IH]; intros i j Hd Hi Hj; [done|].
  simpl in Hd. apply andb_true_iff in Hd as [Hx Hrest].
  assert (Hclash : forall k, rest !! k = Some (JStr date) -> x = JStr date -> False).
  { intros k Hk ->. rewrite forallb_forall in Hx.
    specialize (Hx (JStr date)). rewrite <- list_elem_of_In in Hx.
    specialize (Hx (list_elem_of_lookup_2 _ _ _ Hk)).
    simpl in Hx. by rewrite String.eqb_refl in Hx. }
  destruct i as [|i], j as [|j]; simpl in *.
  - done.
  - exfalso. apply (Hclash j Hj). congruence.
  - exfalso. apply (Hclash i Hi). congruence.
  - f_equal. by apply IH.
Qed.

Lemma uniqueDates_no_duplicate (series : list (list JSValue)) (i j : nat)
    (ri rj : list JSValue) (date : string) :
  uniqueDates series = true ->
  series !! i = Some ri -> series !! j = Some rj ->
  rowDate ri = JStr date -> rowDate rj = JStr date -> i = j.
Proof.
  intros Hu Hi Hj Hri Hrj. apply (distinctDates_string (map rowDate series) i j date Hu).
  - change (map rowDate series) with (rowDate <$> series).
    by rewrite list_lookup_fmap, Hi, <- Hri.
  - change (map rowDate series) with (rowDate <$> series).
    by rewrite list_lookup_fmap, Hj, <- Hrj.
Qed.

(** C6.  [merge] keeps the invariant "at most one row per date"; so the
    series built from the empty one by any sequence of merges never holds two
    rows with the same date. *)
Theorem C6_dedup_invariant :
  (forall (existingData : Series) (date : string) (slots : list JSValue),
      uniqueDates existingData = true ->
      uniqueDates (merge existingData (JStr date :: slots)) = true)
  /\ (forall rows : list (string * list JSValue),
      uniqueDates (foldl (fun series r => merge series (JStr (fst r) :: snd r)) [] rows) = true).
Proof.
  split; [apply merge_keeps_unique|].
  intros rows.
  assert (H : forall series, uniqueDates series = true ->
    uniqueDates (foldl (fun series r => merge series (JStr (fst r) :: snd r)) series rows) = true).
  { induction rows as [|r rows IH]; intros series Hs; [done|].
    simpl. apply IH. by apply merge_keeps_unique. }
  by apply H.
Qed.

Lemma C6_dedup_invariant_witness :
  uniqueDates (merge [[JStr "20250101"; JNum (numOfZ 100)]; [JStr "20250102"; Missing]]
                     [JStr "20250102"; JNum (numOfZ 7)]) = true.
Proof.
  apply (proj1 C6_dedup_invariant
           [[JStr "20250101"; JNum (numOfZ 100)]; [JStr "20250102"; Missing]]
           "20250102" [JNum (numOfZ 7)]).
  reflexivity.
Defined.

(** ** The best row of a symbol during a batch *)

Lemma mapGet_insert_eq (m : gmap JSValue (option RawQuote)) (key : JSValue) (x : option RawQuote) :
  mapGet (<[key := x]> m) key = x.
Proof. unfold mapGet. by rewrite lookup_insert_eq. Qed.

Lemma mapGet_insert_ne (m : gmap JSValue (option RawQuote)) (key key' : JSValue)
    (x : option RawQuote) :
  key <> key' -> mapGet (<[key := x]> m) key' = mapGet m key'.
Proof. intros H. unfold mapGet. by rewrite lookup_insert_ne. Qed.

(** A record for another symbol leaves the best row alone. *)
Lemma foldRecord_other (ps : PollState) (data : RawQuote) (key : JSValue) :
  data_c data <> key ->
  mapGet (bestDataMap (foldRecord ps data)) key = mapGet (bestDataMap ps) key.
Proof.
  intros Hne. unfold foldRecord.
  destruct (truthy (data_c data)); simpl; [|done].
  destruct (hasValidPrice data); simpl; [by apply mapGet_insert_ne|].
  destruct (mapGet (bestDataMap ps) (data_c data)); simpl; [done|by apply mapGet_insert_ne].
Qed.

(** A placeholder record leaves an existing best row alone. *)
Lemma foldRecord_placeholder (ps : PollState) (data : RawQuote) (key : JSValue) :
  is_Some (mapGet (bestDataMap ps) key) ->
  (data_c data = key -> hasValidPrice data = false) ->
  mapGet (bestDataMap (foldRecord ps data)) key = mapGet (bestDataMap ps) key.
Proof.
  intros [b Hb] Hph. destruct (decide (data_c data = key)) as [Heq|Hne].
  - unfold foldRecord. rewrite (Hph Heq), Heq, Hb.
    by destruct (truthy key).
  - by apply foldRecord_other.
Qed.

(** A best row with a valid price is only ever replaced by a record with a
    valid price. *)
Lemma foldRecord_valid_best (ps : PollState) (data : RawQuote) (key : JSValue) (b : RawQuote) :
  mapGet (bestDataMap ps) key = Some b -> hasValidPrice b = true ->
  exists b', mapGet (bestDataMap (foldRecord ps data)) key = Some b' /\ hasValidPrice b' = true.
Proof.
  intros Hb Hv. destruct (decide (data_c data = key)) as [Heq|Hne].
  - unfold foldRecord. rewrite Heq.
    destruct (truthy key); simpl; [|by eauto].
    destruct (hasValidPrice data) eqn:Hd; simpl.
    + exists data. by rewrite mapGet_insert_eq.
    + rewrite Hb. eauto.
  - exists b. by rewrite foldRecord_other.
Qed.

Lemma foldl_foldRecord_valid_best (later : list RawQuote) (ps : PollState) (key : JSValue)
    (b : RawQuote) :
  mapGet (bestDataMap ps) key = Some b -> hasValidPrice b = true ->
  exists b', mapGet (bestDataMap (foldl foldRecord ps later)) key = Some b'
             /\ hasValidPrice b' = true.
Proof.
  revert ps b. induction later as [|d later IH]; intros ps b Hb Hv; simpl; [by eauto|].
  destruct (foldRecord_valid_best ps d key b Hb Hv) as (b1 & Hb1 & Hv1). by eapply IH.
Qed.

Lemma foldl_foldRecord_placeholder (later : list RawQuote) (ps : PollState) (key : JSValue) :
  is_Some (mapGet (bestDataMap ps) key) ->
  Forall (fun d => data_c d = key -> hasValidPrice d = false) later ->
  mapGet (bestDataMap (foldl foldRecord ps later)) key = mapGet (bestDataMap ps) key.
Proof.
  revert ps. induction later as [|d later IH]; intros ps Hs Hall; simpl; [done|].
  inversion Hall as [|? ? Hd Hrest]; subst.
  rewrite IH; [by apply foldRecord_placeholder| |done].
  by rewrite foldRecord_placeholder.
Qed.

(** C7.  For a record of a tick that names its symbol: with a valid price it
    becomes the best row of the symbol whatever was there and the symbol is in
    the satisfied set; with an invalid price it becomes the best row only when
    the symbol has none, and the satisfied set is as before.  Through the
    records that follow in the run, a best row with a valid price is only
    replaced by rows with a valid price, and records with an invalid price
    never replace the best row. *)
Theorem C7_best_row_policy (ps : PollState) (data : RawQuote) (later : list RawQuote) :
  truthy (data_c data) = true ->
  let stockId := data_c data in
  let ps1 := foldRecord ps data in
  let ps2 := foldl foldRecord ps1 later in
  (hasValidPrice data = true ->
     mapGet (bestDataMap ps1) stockId = Some data /\ stockId ∈ validStockIds ps1)
  /\ (hasValidPrice data = false ->
     validStockIds ps1 = validStockIds ps
     /\ mapGet (bestDataMap ps1) stockId = Some (default data (mapGet (bestDataMap ps) stockId))
     /\ (is_Some (mapGet (bestDataMap ps) stockId) -> ps1 = ps))
  /\ (forall b, mapGet (bestDataMap ps1) stockId = Some b -> hasValidPrice b = true ->
       exists b', mapGet (bestDataMap ps2) stockId = Some b' /\ hasValidPrice b' = true)
  /\ (Forall (fun d => data_c d = stockId -> hasValidPrice d = false) later ->
       mapGet (bestDataMap ps2) stockId = mapGet (bestDataMap ps1) stockId).
Proof.
  intros Hc stockId ps1 ps2. subst ps2 ps1 stockId.
  split_and!.
  - intros Hv. unfold foldRecord. rewrite Hc, Hv. simpl.
    split; [apply mapGet_insert_eq | set_solver].
  - intros Hv. unfold foldRecord. rewrite Hc, Hv. simpl.
    destruct (mapGet (bestDataMap ps) (data_c data)) eqn:Hb; simpl.
    + split_and!; [done | by rewrite Hb | done].
    + split_and!; [done | by rewrite mapGet_insert_eq | by intros [? ?]].
  - intros b Hb Hv. by eapply foldl_foldRecord_valid_best.
  - intros Hall. apply foldl_foldRecord_placeholder; [|done].
    unfold foldRecord. rewrite Hc. simpl.
    destruct (hasValidPrice data); simpl; [by rewrite mapGet_insert_eq|].
    destruct (mapGet (bestDataMap ps) (data_c data)) eqn:Hb; simpl;
      [by rewrite Hb | by rewrite mapGet_insert_eq].
Qed.

Lemma C7_best_row_policy_witness :
  exists b', mapGet (bestDataMap (foldl foldRecord
                       (foldRecord (initPoll [mkStock "2330" "TSMC" "twse"])
                                   (quote "2330" "1085.0000" "20251205" "100"))
                       [quote "2330" "-" "20251205" "120"])) (JStr "2330") = Some b'
             /\ hasValidPrice b' = true.
Proof.
  destruct (C7_best_row_policy (initPoll [mkStock "2330" "TSMC" "twse"])
              (quote "2330" "1085.0000" "20251205" "100")
              [quote "2330" "-" "20251205" "120"] eq_refl) as (H1 & _ & H3 & _).
  apply (H3 (quote "2330" "1085.0000" "20251205" "100")); [|reflexivity].
  apply H1. reflexivity.
Defined.

(** ** The valid-price test *)

Lemma parseValue_number (val : JSValue) (x : spec_float) :
  parseValue val = JNum x -> isNaN x = false.
Proof.
  unfold parseValue.
  destruct (strictEq val (JStr "-") || strictEq val JNull || strictEq val JUndefined
            || strictEq val (JStr "")); [discriminate|].
  destruct (isNaN (Number val)) eqn:Hn; [discriminate|]. by intros [= <-].
Qed.

Lemma hasValidPrice_iff (data : RawQuote) :
  hasValidPrice data = true
  <-> truthy (data_z data) = true /\ exists x, parseValue (data_z data) = JNum x.
Proof.
  unfold hasValidPrice, parseValue. destruct (data_z data) as [| |b|x|s]; simpl.
  - split; [discriminate | by intros [? _]].
  - split; [discriminate | by intros [? _]].
  - destruct b; simpl; [|split; [discriminate | by intros [? _]]].
    split; [eauto | done].
  - destruct x; simpl; try (split; [discriminate | by intros [? _]]);
      (split; [eauto | done]).
  - destruct (String.eqb s "-") eqn:Hd; simpl.
    + rewrite andb_false_r. split; [discriminate | by intros [_ [? ?]]].
    + destruct (String.eqb s "") eqn:He; simpl; [split; [discriminate | by intros [? _]]|].
      destruct (isNaN (StringToNumber s)); simpl;
        [split; [discriminate | by intros [_ [? ?]]] | split; [eauto | done]].
Qed.

(** A close field ["Infinity"] passes the test and is not a finite number. *)
Lemma C8_counterexample : ~ valid_iff_finite.
Proof.
  intros H. specialize (H (quote "2330" "Infinity" "20251205" "100")).
  destruct H as [H _]. specialize (H eq_refl). discriminate H.
Qed.

(** C8, amended.  A record carries a valid trade price exactly when its close
    field is truthy and [parseValue] turns it into a number, which is then not
    NaN but may be infinite; for a close field that is a string this is
    exactly when [parseValue] turns it into a number.  The placeholder dash,
    the empty string and values that convert to NaN are invalid. *)
Theorem C8_valid_price (data : RawQuote) :
  (hasValidPrice data = true
   <-> truthy (data_z data) = true /\ exists x, parseValue (data_z data) = JNum x)
  /\ (forall s, data_z data = JStr s ->
      (hasValidPrice data = true <-> exists x, parseValue (data_z data) = JNum x))
  /\ (forall x, parseValue (data_z data) = JNum x -> isNaN x = false)
  /\ (data_z data = JStr "-" -> hasValidPrice data = false)
  /\ (data_z data = JStr "" -> hasValidPrice data = false)
  /\ (isNaN (Number (data_z data)) = true -> hasValidPrice data = false).
Proof.
  split_and!.
  - apply hasValidPrice_iff.
  - intros s Hs. rewrite hasValidPrice_iff. split; [by intros [_ ?]|].
    intros [x Hx]. split; [|by eauto].
    rewrite Hs in *. simpl. destruct (String.eqb s "") eqn:He; [|done].
    apply String.eqb_eq in He. subst s. discriminate Hx.
  - apply parseValue_number.
  - intros H. unfold hasValidPrice. by rewrite H.
  - intros H. unfold hasValidPrice. by rewrite H.
  - intros H. unfold hasValidPrice. rewrite H. simpl. apply andb_false_r.
Qed.

Lemma C8_valid_price_witness :
  hasValidPrice (quote "2330" "-" "20251205" "100") = false.
Proof.
  apply (C8_valid_price (quote "2330" "-" "20251205" "100")). reflexivity.
Defined.

(** ** The retry loops end *)

Lemma batchLoop_unfold (fuel : nat) (stocks : list Stock) (startTime : Z)
    (ps : PollState) (w : World) :
  batchLoop fuel stocks startTime ps w
  = if now w - startTime <? BATCH_FETCH_TIME then
      match fuel with
      | O => None
      | S fuel' =>
          let '(dataArray, w) := fetchBatchStockData stocks w in
          let ps := if (0 <? length dataArray)%nat then foldl foldRecord ps dataArray else ps in
          if (size (validStockIds ps) =? length stocks)%nat then Some (ps, w)
          else
            let w := if now w - startTime <? BATCH_FETCH_TIME then delay RETRY_INTERVAL w else w in
            batchLoop fuel' stocks startTime ps w
      end
    else Some (ps, w).
Proof. by destruct fuel. Qed.

Lemma retryLoop_unfold (fuel : nat) (stock : Stock) (startTime : Z)
    (lastValidData : option RawQuote) (w : World) :
  retryLoop fuel stock startTime lastValidData w
  = if now w - startTime <? MAX_RETRY_TIME then
      match fuel with
      | O => None
      | S fuel' =>
          let '(data, w) := fetchStockData stock w in
          match data with
          | Some data =>
              if hasValidPrice data then Some (Some data, w)
              else retryLoop fuel' stock startTime (Some data) (delay RETRY_INTERVAL w)
          | None => retryLoop fuel' stock startTime lastValidData (delay RETRY_INTERVAL w)
          end
      end
    else Some (lastValidData, w).
Proof. by destruct fuel. Qed.

Lemma fetchBatchStockData_now (stocks : list Stock) (w : World) :
  now w <= now (snd (fetchBatchStockData stocks w)).
Proof.
  unfold fetchBatchStockData. destruct (feed w) as [|[latency msgArray] rest]; simpl; lia.
Qed.

(** With [fuel] iterations for each [RETRY_INTERVAL] left of the budget the
    loop reaches its end. *)
Lemma batchLoop_total (fuel : nat) (stocks : list Stock) (startTime : Z)
    (ps : PollState) (w : World) :
  BATCH_FETCH_TIME - (now w - startTime) <= RETRY_INTERVAL * Z.of_nat fuel ->
  is_Some (batchLoop fuel stocks startTime ps w).
Proof.
  revert ps w. induction fuel as [|fuel IH]; intros ps w Hbudget; rewrite batchLoop_unfold.
  - destruct (now w - startTime <? BATCH_FETCH_TIME) eqn:Hc; [|by eauto].
    apply Z.ltb_lt in Hc. unfold RETRY_INTERVAL in Hbudget. lia.
  - destruct (now w - startTime <? BATCH_FETCH_TIME) eqn:Hc; [|by eauto].
    pose proof (fetchBatchStockData_now stocks w) as Hnow.
    destruct (fetchBatchStockData stocks w) as [dataArray w1]. simpl in Hnow.
    cbv zeta.
    match goal with |- context [(size ?a =? ?b)%nat] => destruct (size a =? b)%nat end;
      [by eauto|].
    apply IH. unfold RETRY_INTERVAL, BATCH_FETCH_TIME in *.
    destruct (now w1 - startTime <? 30000) eqn:Hc1; simpl.
    + lia.
    + apply Z.ltb_ge in Hc1. lia.
Qed.

Lemma fetchBatchWithRetry_total (stocks : list Stock) (w : World) :
  is_Some (fetchBatchWithRetry stocks w).
Proof.
  unfold fetchBatchWithRetry.
  destruct (batchLoop_total 10 stocks (now w) (initPoll stocks) w) as [[ps w'] ->];
    [unfold BATCH_FETCH_TIME, RETRY_INTERVAL; lia | by eauto].
Qed.

Lemma retryLoop_total (fuel : nat) (stock : Stock) (startTime : Z)
    (lastValidData : option RawQuote) (w : World) :
  MAX_RETRY_TIME - (now w - startTime) <= RETRY_INTERVAL * Z.of_nat fuel ->
  is_Some (retryLoop fuel stock startTime lastValidData w).
Proof.
  revert lastValidData w.
  induction fuel as [|fuel IH]; intros lastValidData w Hbudget; rewrite retryLoop_unfold.
  - destruct (now w - startTime <? MAX_RETRY_TIME) eqn:Hc; [|by eauto].
    apply Z.ltb_lt in Hc. unfold RETRY_INTERVAL in Hbudget. lia.
  - destruct (now w - startTime <? MAX_RETRY_TIME) eqn:Hc; [|by eauto].
    unfold fetchStockData.
    pose proof (fetchBatchStockData_now [stock] w) as Hnow.
    destruct (fetchBatchStockData [stock] w) as [msgArray w1]. simpl in Hnow.
    unfold RETRY_INTERVAL, MAX_RETRY_TIME in *.
    destruct (head msgArray) as [data|].
    + destruct (hasValidPrice data); [by eauto|]. apply IH. simpl. lia.
    + apply IH. simpl. lia.
Qed.

Lemma fetchWithRetry_total (stock : Stock) (w : World) : is_Some (fetchWithRetry stock w).
Proof.
  unfold fetchWithRetry. apply retryLoop_total.
  unfold MAX_RETRY_TIME, RETRY_INTERVAL. lia.
Qed.

(** ** Early exit *)

(** C9.  The loop ends early when [validStockIds.size === stocks.length];
    the comparison misses the case of a batch listing one symbol twice and the
    case of an answer carrying a valid price for a symbol that is not in the
    batch.  In both, every symbol of the batch has a valid price after the
    first tick and the poller goes on for ten requests and ten sleeps. *)
Theorem C9_early_exit_missed :
  pollSummary (fetchBatchWithRetry
                 [mkStock "2330" "TSMC" "twse"; mkStock "2330" "TSMC" "otc"]
                 (mkWorld 0 [(0%N, [quote "2330" "1085.0000" "20251205" "100"])] []))
  = Some (10%nat, 10%nat, 30000)
  /\ pollSummary (fetchBatchWithRetry
                    [mkStock "2330" "TSMC" "twse"]
                    (mkWorld 0 [(0%N, [quote "2330" "1085.0000" "20251205" "100";
                                       quote "2317" "150.5" "20251205" "70"])] []))
     = Some (10%nat, 10%nat, 30000).
Proof. split; vm_compute; reflexivity. Qed.

(** ** When the early exit is taken *)

(** The ids a response adds to [validStockIds]. *)
Lemma foldl_foldRecord_validStockIds (dataArray : list RawQuote) (ps : PollState) :
  validStockIds (foldl foldRecord ps dataArray)
  = validStockIds ps
    ∪ list_to_set (data_c <$> filter (fun d => truthy (data_c d) = true /\ hasValidPrice d = true)
                                      dataArray).
Proof.
  revert ps. induction dataArray as [|d rest IH]; intros ps; simpl.
  - by rewrite (right_id_L ∅ (∪)).
  - rewrite IH. unfold foldRecord.
    destruct (truthy (data_c d)) eqn:Hc; simpl.
    + destruct (hasValidPrice d) eqn:Hv; simpl.
      * rewrite filter_cons_True by done. rewrite fmap_cons, list_to_set_cons.
        by rewrite (comm_L (∪) {[data_c d]}), (assoc_L (∪)).
      * rewrite filter_cons_False by (intros [_ ?]; congruence).
        by destruct (mapGet (bestDataMap ps) (data_c d)).
    + rewrite filter_cons_False by (intros [? _]; congruence). done.
Qed.

(** With distinct symbols in the batch and a first answer whose valid-price
    records name exactly the symbols of the batch, the poller makes one
    request and does not sleep. *)
Lemma fetchBatchWithRetry_early_exit (stocks : list Stock) (t0 : Z) (latency : N)
    (dataArray : list RawQuote) (rest : list (N * list RawQuote)) :
  NoDup (stock_id <$> stocks) ->
  (forall stock, stock ∈ stocks ->
     stock_id stock <> ""
     /\ exists d, d ∈ dataArray /\ data_c d = JStr (stock_id stock) /\ hasValidPrice d = true) ->
  (forall d, d ∈ dataArray -> truthy (data_c d) = true -> hasValidPrice d = true ->
     exists stock, stock ∈ stocks /\ data_c d = JStr (stock_id stock)) ->
  exists bestDataMap,
    fetchBatchWithRetry stocks (mkWorld t0 ((latency, dataArray) :: rest) [])
    = Some (bestDataMap, mkWorld (t0 + Z.of_N latency) rest [EvFetch dataArray]).
Proof.
  intros Hnodup Hall Honly. unfold fetchBatchWithRetry.
  change (now (mkWorld t0 ((latency, dataArray) :: rest) [])) with t0.
  change 10%nat with (S 9). rewrite batchLoop_unfold.
  change (now (mkWorld t0 ((latency, dataArray) :: rest) [])) with t0.
  rewrite Z.sub_diag. change (0 <? BATCH_FETCH_TIME) with true. cbv iota.
  unfold fetchBatchStockData. cbn [feed now events app].
  set (ps := if (0 <? length dataArray)%nat then foldl foldRecord (initPoll stocks) dataArray
             else initPoll stocks).
  assert (Hids : validStockIds ps = list_to_set (JStr <$> (stock_id <$> stocks))).
  { subst ps. destruct dataArray as [|d0 arr].
    - destruct stocks as [|stock ?]; [done|].
      destruct (Hall stock) as (_ & d & Hd & _); [apply list_elem_of_here|].
      by apply not_elem_of_nil in Hd.
    - change (0 <? length (d0 :: arr))%nat with true. cbv iota.
      rewrite foldl_foldRecord_validStockIds.
      change (validStockIds (initPoll stocks)) with (∅ : gset JSValue).
      apply set_eq. intros key. rewrite elem_of_union, !elem_of_list_to_set.
      rewrite !list_elem_of_fmap. split.
      + intros [Hempty | (d & -> & Hd)]; [by apply not_elem_of_empty in Hempty|].
        apply list_elem_of_filter in Hd as [[Hc Hv] Hd].
        destruct (Honly d Hd Hc Hv) as (stock & Hstock & Heq).
        exists (stock_id stock). split; [done|]. apply list_elem_of_fmap. eauto.
      + intros (id & -> & (stock & -> & Hstock)%list_elem_of_fmap).
        destruct (Hall stock Hstock) as (Hid & d & Hd & Hc & Hv).
        right. exists d. split; [done|]. apply list_elem_of_filter. split; [|done].
        split; [|done]. rewrite Hc. simpl.
        by destruct (String.eqb_spec (stock_id stock) ""). }
  assert (Hsize : (size (validStockIds ps) =? length stocks)%nat = true).
  { rewrite Hids. apply Nat.eqb_eq. rewrite size_list_to_set.
    - by rewrite !length_fmap.
    - apply NoDup_fmap_2; [|done]. by intros ? ? [= ->]. }
  rewrite Hsize. by eexists.
Qed.

(** ** First placeholder against last placeholder *)

Lemma observed_fetch (evs : list Event) (response : list RawQuote) :
  observed (evs ++ [EvFetch response]) = (observed evs ++ response)%list.
Proof. unfold observed. rewrite map_app, concat_app. simpl. by rewrite app_nil_r. Qed.

Lemma observed_sleep (evs : list Event) (ms : Z) :
  observed (evs ++ [EvSleep ms]) = observed evs.
Proof. unfold observed. rewrite map_app, concat_app. simpl. by rewrite app_nil_r. Qed.

Lemma fetch_step (stocks : list Stock) (w : World) :
  let '(msgArray, w1) := fetchBatchStockData stocks w in
  msgArray = match feed w with [] => [] | (_, a) :: _ => a end
  /\ now w1 = now w + match feed w with [] => 0 | (latency, _) :: _ => Z.of_N latency end
  /\ feed w1 = tail (feed w)
  /\ observed (events w1) = (observed (events w) ++ msgArray)%list.
Proof.
  unfold fetchBatchStockData. destruct (feed w) as [|[latency a] rest]; simpl;
    rewrite observed_fetch; split_and!; try done; lia.
Qed.

Lemma placeholderTick_head (stockId : string) (ticks : list (N * list RawQuote)) :
  Forall (placeholderTick stockId) ticks ->
  let msgArray := match ticks with [] => [] | (_, a) :: _ => a end in
  (msgArray = [] \/ exists r, msgArray = [r] /\ data_c r = JStr stockId /\ hasValidPrice r = false)
  /\ Forall (placeholderTick stockId) (tail ticks).
Proof.
  intros H. destruct ticks as [|[latency a] rest]; simpl; [by auto|].
  inversion H as [|? ? Hh Ht]; subst. split; [exact Hh | exact Ht].
Qed.

Lemma retry_batch_sim (stock : Stock) (startTime : Z) (fuel : nat) :
  stock_id stock <> "" ->
  forall (wl wb : World) (lastValidData : option RawQuote) (ps : PollState),
  feed wl = feed wb ->
  Forall (placeholderTick (stock_id stock)) (feed wl) ->
  observed (events wl) = observed (events wb) ->
  (now wl = now wb
   \/ (BATCH_FETCH_TIME <= now wl - startTime /\ BATCH_FETCH_TIME <= now wb - startTime)) ->
  lastValidData = last (observed (events wl)) ->
  mapGet (bestDataMap ps) (JStr (stock_id stock)) = head (observed (events wb)) ->
  validStockIds ps = ∅ ->
  forall r wl', retryLoop fuel stock startTime lastValidData wl = Some (r, wl') ->
  exists ps' wb', batchLoop fuel [stock] startTime ps wb = Some (ps', wb')
    /\ r = last (observed (events wl'))
    /\ mapGet (bestDataMap ps') (JStr (stock_id stock)) = head (observed (events wb'))
    /\ observed (events wl') = observed (events wb').
Proof.
  intros Hid. induction fuel as [|fuel IH];
    intros wl wb lvd ps Hfeed Hph Hobs Hnow Hlvd Hbest Hvalid r wl' Hrun;
    rewrite retryLoop_unfold in Hrun; rewrite batchLoop_unfold;
    unfold MAX_RETRY_TIME in Hrun; unfold BATCH_FETCH_TIME in *.
  - destruct (now wl - startTime <? 30000) eqn:Hcl; [discriminate|].
    injection Hrun as <- <-.
    assert (Hcb : (now wb - startTime <? 30000) = false).
    { apply Z.ltb_ge. apply Z.ltb_ge in Hcl. destruct Hnow as [<-|[_ ?]]; lia. }
    rewrite Hcb. by eexists _, _.
  - destruct (now wl - startTime <? 30000) eqn:Hcl.
    2: { injection Hrun as <- <-.
         assert (Hcb : (now wb - startTime <? 30000) = false).
         { apply Z.ltb_ge. apply Z.ltb_ge in Hcl. destruct Hnow as [<-|[_ ?]]; lia. }
         rewrite Hcb. by eexists _, _. }
    assert (Heq : now wl = now wb).
    { apply Z.ltb_lt in Hcl. destruct Hnow as [?|[? _]]; [done|lia]. }
    rewrite <- Heq, Hcl. unfold fetchStockData in Hrun.
    pose proof (fetch_step [stock] wl) as Hl. pose proof (fetch_step [stock] wb) as Hb.
    destruct (fetchBatchStockData [stock] wl) as [arr wl1].
    destruct (fetchBatchStockData [stock] wb) as [arr' wb1].
    destruct Hl as (Harr & Hnl & Hfl & Hol). destruct Hb as (Harr' & Hnb & Hfb & Hob).
    rewrite <- Hfeed in Harr', Hnb, Hfb. rewrite <- Harr in Harr'. subst arr'.
    rewrite <- Heq, <- Hnl in Hnb.
    destruct (placeholderTick_head _ _ Hph) as [Hhead Htail]. rewrite <- Harr in Hhead.
    rewrite <- Hfl in Htail. clear Harr.
    assert (Hstep : exists lvd1 ps1,
      retryLoop fuel stock startTime lvd1 (delay RETRY_INTERVAL wl1) = Some (r, wl')
      /\ lvd1 = last (observed (events wl1))
      /\ (if (0 <? length arr)%nat then foldl foldRecord ps arr else ps) = ps1
      /\ mapGet (bestDataMap ps1) (JStr (stock_id stock)) = head (observed (events wb1))
      /\ validStockIds ps1 = ∅).
    { destruct Hhead as [-> | (q & -> & Hq & Hinv)]; simpl in *.
      - exists lvd, ps. rewrite Hol, Hob, !app_nil_r. by split_and!.
      - rewrite Hinv in Hrun. exists (Some q). eexists. split_and!; [done| |done| |].
        + rewrite Hol. by rewrite last_snoc.
        + unfold foldRecord. rewrite Hq, Hinv. simpl.
          assert (Ht : String.eqb (stock_id stock) "" = false) by (by apply String.eqb_neq).
          rewrite Ht. simpl. rewrite Hob, Hbest.
          destruct (observed (events wb)) as [|x rest] eqn:Hx; simpl.
          * by rewrite mapGet_insert_eq.
          * done.
        + unfold foldRecord. rewrite Hq, Hinv. simpl.
          assert (Ht : String.eqb (stock_id stock) "" = false) by (by apply String.eqb_neq).
          rewrite Ht. simpl. by destruct (mapGet (bestDataMap ps) (JStr (stock_id stock))). }
    destruct Hstep as (lvd1 & ps1 & Hrun1 & Hlvd1 & Hps1 & Hbest1 & Hvalid1).
    rewrite Hps1, Hvalid1, size_empty. simpl.
    apply (IH (delay RETRY_INTERVAL wl1) _ lvd1 ps1); [| | | | | |exact Hvalid1|exact Hrun1].
    + simpl. destruct (now wb1 - startTime <? 30000); simpl; by rewrite Hfl, Hfb.
    + exact Htail.
    + simpl. rewrite observed_sleep.
      destruct (now wb1 - startTime <? 30000); simpl;
        rewrite ?observed_sleep, Hol, Hob; by rewrite Hobs.
    + destruct (now wb1 - startTime <? 30000) eqn:Hc1; simpl.
      * left. lia.
      * right. apply Z.ltb_ge in Hc1. unfold RETRY_INTERVAL. lia.
    + simpl. by rewrite observed_sleep.
    + destruct (now wb1 - startTime <? 30000); simpl; by rewrite ?observed_sleep.
Qed.

(** C10.  On a feed whose ticks bring the symbol nothing or one record with
    no valid price, [fetchWithRetry] returns the last record the provider
    delivered and [fetchBatchWithRetry] keeps the first one, both having
    polled the same ticks; and there is a feed of two distinct such records
    on which the two return different records for the symbol. *)
Theorem C10_placeholder_retention :
  (forall (stock : Stock) (t0 : Z) (ticks : list (N * list RawQuote)),
      stock_id stock <> "" ->
      Forall (placeholderTick (stock_id stock)) ticks ->
      exists wL bestDataMap wB,
        fetchWithRetry stock (mkWorld t0 ticks []) = Some (last (observed (events wL)), wL)
        /\ fetchBatchWithRetry [stock] (mkWorld t0 ticks []) = Some (bestDataMap, wB)
        /\ mapGet bestDataMap (JStr (stock_id stock)) = head (observed (events wB))
        /\ observed (events wL) = observed (events wB))
  /\ (exists (stock : Stock) (r1 r2 : RawQuote),
        let w := mkWorld 0 [(0%N, [r1]); (0%N, [r2])] [] in
        r1 <> r2 /\ hasValidPrice r1 = false /\ hasValidPrice r2 = false
        /\ data_c r1 = JStr (stock_id stock) /\ data_c r2 = JStr (stock_id stock)
        /\ fst <$> fetchWithRetry stock w = Some (Some r2)
        /\ (fun r => mapGet (fst r) (JStr (stock_id stock))) <$> fetchBatchWithRetry [stock] w
           = Some (Some r1)).
Proof.
  split.
  - intros stock t0 ticks Hid Hph.
    set (w := mkWorld t0 ticks []).
    destruct (fetchWithRetry_total stock w) as [[r wl'] Hrun].
    pose proof Hrun as Hrun'. unfold fetchWithRetry in Hrun'.
    apply (retry_batch_sim stock (now w) 10 Hid w w None (initPoll [stock])) in Hrun'
      as (ps' & wb' & Hb & Hr & Hbest & Hobs);
      [| done | done | done | by left | done | apply mapGet_insert_eq | done].
    exists wl', (bestDataMap ps'), wb'. split_and!; [| |done|done].
    + by rewrite Hrun, Hr.
    + unfold fetchBatchWithRetry. fold w. by rewrite Hb.
  - exists (mkStock "2330" "TSMC" "twse"),
      (quote "2330" "-" "20251205" "100"), (quote "2330" "-" "20251205" "250").
    split_and!; [discriminate | reflexivity | reflexivity | reflexivity | reflexivity
                | vm_compute; reflexivity | vm_compute; reflexivity].
Qed.

Lemma C10_placeholder_retention_witness :
  exists wL bestDataMap wB,
    fetchWithRetry (mkStock "2330" "TSMC" "twse")
      (mkWorld 0 [(1200%N, [quote "2330" "-" "20251205" "100"]); (800%N, [])] [])
    = Some (last (observed (events wL)), wL)
    /\ fetchBatchWithRetry [mkStock "2330" "TSMC" "twse"]
         (mkWorld 0 [(1200%N, [quote "2330" "-" "20251205" "100"]); (800%N, [])] [])
       = Some (bestDataMap, wB)
    /\ mapGet bestDataMap (JStr "2330") = head (observed (events wB))
    /\ observed (events wL) = observed (events wB).
Proof.
  apply (proj1 C10_placeholder_retention (mkStock "2330" "TSMC" "twse") 0
           [(1200%N, [quote "2330" "-" "20251205" "100"]); (800%N, [])]).
  - discriminate.
  - constructor; [|constructor; [by left | constructor]].
    right. exists (quote "2330" "-" "20251205" "100"). by split_and!.
Defined.

(** ** Symbols without a best row *)

Lemma processBatchData_untouched (stocks : list Stock)
    (bestDataMap : gmap JSValue (option RawQuote)) (st : Store) (stockId : string) :
  mapGet bestDataMap (JStr stockId) = None ->
  files (fst (processBatchData stocks bestDataMap st)) !! stockId = files st !! stockId
  /\ exists ws, writes (fst (processBatchData stocks bestDataMap st)) = (writes st ++ ws)%list
                /\ stockId ∉ ws.
Proof.
  intros Hnone. revert st. induction stocks as [|stock rest IH]; intros st; simpl.
  - split; [done|]. exists []. rewrite app_nil_r. split; [done | apply not_elem_of_nil].
  - destruct (mapGet bestDataMap (JStr (stock_id stock))) as [data|] eqn:Hget; [|apply IH].
    destruct (parseDate data) as [todayDate|e]; simpl.
    2: { split; [done|]. exists []. rewrite app_nil_r. split; [done | apply not_elem_of_nil]. }
    destruct (truthy todayDate); simpl; [|apply IH].
    assert (Hne : stock_id stock <> stockId) by (intros Heq; rewrite Heq in Hget; congruence).
    destruct (IH (saveData (stock_id stock)
                    (merge (loadExistingData (stock_id stock) st) (buildNewRow todayDate data)) st))
      as (Hfiles & ws & Hws & Hnotin).
    split.
    + rewrite Hfiles. simpl. by rewrite lookup_insert_ne.
    + exists (stock_id stock :: ws). split.
      * rewrite Hws. simpl. by rewrite <- app_assoc.
      * apply not_elem_of_cons. split; [congruence | done].
Qed.

(** A record ending the batch with only placeholders is reconciled and
    written. *)
Lemma C3_counterexample : ~ skipped_when_unresolved.
Proof.
  intros H.
  specialize (H [mkStock "2330" "TSMC" "twse"]
                (mkWorld 0 [(0%N, [quote "2330" "-" "20250101" "6000"])] [])
                emptyStore (mkStock "2330" "TSMC" "twse")).
  assert (Hin : mkStock "2330" "TSMC" "twse" ∈ [mkStock "2330" "TSMC" "twse"])
    by apply list_elem_of_here.
  specialize (H Hin). clear Hin.
  assert (Hnv : neverValid "2330" [(0%N, [quote "2330" "-" "20250101" "6000"])]).
  { constructor; [|constructor]. constructor; [|constructor]. intros _. reflexivity. }
  specialize (H (or_intror Hnv)). clear Hnv.
  vm_compute in H. destruct H as [H _]. discriminate H.
Qed.

(** C3, amended.  A symbol for which the batch ends with no best row is
    skipped: after the batch has been reconciled its file is what it was and
    was not written. *)
Theorem C3_unresolved_untouched (batch : list Stock) (w : World) (st : Store)
    (stockId : string) :
  match fetchBatchWithRetry batch w with
  | Some (bestDataMap, _) => mapGet bestDataMap (JStr stockId) = None
  | None => False
  end ->
  match runBatch batch w st with
  | Some (_, st', _) =>
      files st' !! stockId = files st !! stockId /\ stockId ∉ newWrites st st'
  | None => False
  end.
Proof.
  unfold runBatch.
  destruct (fetchBatchWithRetry batch w) as [[bestDataMap w1]|]; [|done].
  intros Hnone.
  destruct (processBatchData_untouched batch bestDataMap st stockId Hnone)
    as (Hfiles & ws & Hws & Hnotin).
  destruct (processBatchData batch bestDataMap st) as [st' r]. simpl in *.
  split; [done|]. unfold newWrites. by rewrite Hws, drop_app_length.
Qed.

Lemma C3_unresolved_untouched_witness :
  match runBatch [mkStock "2330" "TSMC" "twse"; mkStock "2317" "Hon Hai" "twse"]
                 (mkWorld 0 [(0%N, [quote "2330" "1085.0000" "20251205" "100"])] [])
                 emptyStore with
  | Some (_, st', _) =>
      files st' !! "2317" = files emptyStore !! "2317" /\ "2317" ∉ newWrites emptyStore st'
  | None => False
  end.
Proof.
  apply (C3_unresolved_untouched
           [mkStock "2330" "TSMC" "twse"; mkStock "2317" "Hon Hai" "twse"]
           (mkWorld 0 [(0%N, [quote "2330" "1085.0000" "20251205" "100"])] [])
           emptyStore "2317").
  vm_compute. reflexivity.
Defined.

(** ** Records without a date *)

(** A best row from which no date can be derived is passed over. *)
Lemma processBatchData_undatable (stock : Stock) (rest : list Stock)
    (bestDataMap : gmap JSValue (option RawQuote)) (st : Store) (data : RawQuote)
    (todayDate : JSValue) :
  mapGet bestDataMap (JStr (stock_id stock)) = Some data ->
  parseDate data = Normal todayDate -> truthy todayDate = false ->
  processBatchData (stock :: rest) bestDataMap st = processBatchData rest bestDataMap st.
Proof. intros Hget Hdate Hfalsy. simpl. by rewrite Hget, Hdate, Hfalsy. Qed.

(** An exception of [parseDate] ends [processBatchData] at that symbol. *)
Lemma processBatchData_throw (stock : Stock) (rest : list Stock)
    (bestDataMap : gmap JSValue (option RawQuote)) (st : Store) (data : RawQuote)
    (e : JSError) :
  mapGet bestDataMap (JStr (stock_id stock)) = Some data ->
  parseDate data = Throw e ->
  processBatchData (stock :: rest) bestDataMap st = (st, Throw e).
Proof. intros Hget Hdate. simpl. by rewrite Hget, Hdate. Qed.


(** C2.  A record with no date whose timestamp is the provider's placeholder
    (or any text that is not a number) makes [parseDate] throw, by the
    [toISOString] of an invalid date: the run ends with exit status 1 and the
    other symbol of the batch, whose record is complete, is not persisted.
    A date sent as a number makes it throw too ([includes] is not a function
    of numbers).  With neither date nor timestamp the same record is dropped,
    the other symbol is persisted and the status is 0. *)
Theorem C2_unusable_timestamp_is_fatal :
  parseDate (quoteAt "2330" "1085.0000" "-") = Throw RangeError
  /\ parseDate (mkQuote (JStr "2330") (JStr "1085.0000") (JNum (numOfZ 20251205)) JUndefined
                        JUndefined JUndefined JUndefined JUndefined) = Throw TypeError
  /\ runSummary (main [mkStock "2330" "TSMC" "twse"; mkStock "2317" "Hon Hai" "twse"]
                      (mkWorld 0 [(0%N, [quoteAt "2330" "1085.0000" "-";
                                         quote "2317" "150.5" "20251205" "70"])] [])
                      emptyStore)
     = Some (∅, [], 1)
  /\ runSummary (main [mkStock "2330" "TSMC" "twse"; mkStock "2317" "Hon Hai" "twse"]
                      (mkWorld 0 [(0%N, [mkQuote (JStr "2330") (JStr "1085.0000") JUndefined
                                           JUndefined JUndefined JUndefined JUndefined JUndefined;
                                         quote "2317" "150.5" "20251205" "70"])] [])
                      emptyStore)
     = Some ({["2317" := [[JStr "20251205"; Missing; Missing; Missing;
                           JNum (Number (JStr "150.5")); JNum (numOfZ 70)]]]},
             ["2317"], 0).
Proof. split_and!; vm_compute; reflexivity. Qed.

(** ** Dates *)

Lemma chars_str (l : list ascii) : chars (str l) = l.
Proof. apply list_ascii_of_string_of_list_ascii. Qed.

Lemma str_chars (s : string) : str (chars s) = s.
Proof. apply string_of_list_ascii_of_string. Qed.

Lemma length_str (l : list ascii) : String.length (str l) = length l.
Proof. induction l as [|ch l IH]; simpl; [done | by rewrite IH]. Qed.

Lemma str_nonempty (l : list ascii) : l <> [] -> String.eqb (str l) "" = false.
Proof. destruct l; [done|]. intros _. reflexivity. Qed.

Lemma allDigits_filter (l : list ascii) (n : nat) :
  allDigits (str (take n (filter (fun ch => isDigit ch = true) l))) = true.
Proof.
  unfold allDigits. rewrite chars_str. apply forallb_forall. intros ch Hin.
  apply list_elem_of_In in Hin. apply elem_of_take in Hin as (i & Hi & _).
  apply list_elem_of_lookup_2 in Hi. by apply list_elem_of_filter in Hi as [? _].
Qed.

(** What [formatDate] returns is [null] or at most eight digits. *)
Lemma formatDate_shape (dateStr v : JSValue) :
  formatDate dateStr = Normal v ->
  v = JNull \/ exists s, v = JStr s /\ allDigits s = true /\ (String.length s <= 8)%nat.
Proof.
  unfold formatDate. destruct (truthy dateStr); simpl; [|intros [= <-]; by left].
  destruct dateStr; try discriminate. intros [= <-]. right. eexists. split; [done|].
  unfold slice0, removeNonDigits. rewrite chars_str. split; [apply allDigits_filter|].
  rewrite length_str, length_take. lia.
Qed.

Lemma parseDate_shape (data : RawQuote) (v : JSValue) :
  parseDate data = Normal v ->
  v = JNull \/ exists s, v = JStr s /\ allDigits s = true /\ (String.length s <= 8)%nat.
Proof.
  unfold parseDate, bindC.
  destruct (negb (truthy (data_d data)) && truthy (data_tlong data)).
  - destruct (TimeClip (Number (data_tlong data))); [|discriminate].
    match goal with |- context [truthy ?x] => destruct (truthy x) end;
      [|apply formatDate_shape].
    destruct (includesChar "/" _); apply formatDate_shape.
  - destruct (truthy (data_d data)); [|apply formatDate_shape].
    destruct (data_d data); try discriminate.
    destruct (includesChar "/" s); apply formatDate_shape.
Qed.

(** A date that passes [if (!todayDate)] has one to eight digits; one that
    does not is [null] or empty. *)
Lemma parseDate_key (data : RawQuote) (v : JSValue) :
  parseDate data = Normal v ->
  if truthy v then isDateKey v = true else v = JNull \/ v = JStr "".
Proof.
  intros [-> | (s & -> & Hd & Hlen)]%parseDate_shape; [by left|].
  unfold truthy, isDateKey. destruct (String.eqb s "") eqn:He; cbn [negb].
  - apply String.eqb_eq in He. subst. by right.
  - rewrite Hd, andb_true_r. apply andb_true_iff.
    split; apply Nat.leb_le; [|done]. destruct s; [done | simpl; lia].
Qed.

Lemma length_chars (s : string) : length (chars s) = String.length s.
Proof. induction s as [|ch s IH]; simpl; [done | by rewrite IH]. Qed.

Lemma slice0_length (n : nat) (s : string) :
  String.length (slice0 n s) = Nat.min n (String.length s).
Proof. unfold slice0. by rewrite length_str, length_take, length_chars. Qed.

(** Removing a character that is not a digit does not change the digits. *)
Lemma removeNonDigits_removeChar (x : ascii) (s : string) :
  isDigit x = false -> removeNonDigits (removeChar x s) = removeNonDigits s.
Proof.
  intros Hx. unfold removeNonDigits, removeChar. rewrite chars_str. f_equal.
  rewrite list_filter_filter. apply list_filter_iff. intros ch. split; [by intros [? _]|].
  intros Hd. split; [done|]. intros ->. congruence.
Qed.

Lemma eightDigits_slice (s : string) :
  (8 <= String.length (removeNonDigits s))%nat ->
  isEightDigits (JStr (slice0 8 (removeNonDigits s))) = true.
Proof.
  intros Hlen. unfold isEightDigits. rewrite slice0_length.
  rewrite Nat.min_l by done. simpl.
  unfold slice0, removeNonDigits. rewrite chars_str. apply allDigits_filter.
Qed.

(** The statements of [parseDate] after the timestamp branch, on a text that
    holds a digit. *)
Lemma parseDate_tail (X : string) :
  removeNonDigits X <> "" ->
  bindC (if truthy (JStr X) then
           match JStr X with
           | JStr s => if includesChar "/" s then Normal (JStr (removeChar "/" s))
                       else Normal (JStr X)
           | _ => Throw TypeError
           end
         else Normal (JStr X)) formatDate
  = Normal (JStr (slice0 8 (removeNonDigits X))).
Proof.
  intros Hd.
  assert (Hfmt : forall Y, removeNonDigits Y <> "" ->
            formatDate (JStr Y) = Normal (JStr (slice0 8 (removeNonDigits Y)))).
  { intros Y HY. unfold formatDate. simpl.
    destruct (String.eqb Y "") eqn:He; [|done].
    apply String.eqb_eq in He. by subst. }
  assert (HX : truthy (JStr X) = true).
  { simpl. destruct (String.eqb X "") eqn:He; [|done].
    apply String.eqb_eq in He. by subst. }
  rewrite HX. destruct (includesChar "/" X); simpl.
  - rewrite Hfmt; rewrite removeNonDigits_removeChar by done; done.
  - by apply Hfmt.
Qed.

(** A date text with a digit: the first eight digits. *)
Lemma parseDate_of_text (data : RawQuote) (s : string) :
  data_d data = JStr s -> removeNonDigits s <> "" ->
  parseDate data = Normal (JStr (slice0 8 (removeNonDigits s))).
Proof.
  intros Hd Hs. unfold parseDate. rewrite Hd.
  assert (HX : truthy (JStr s) = true).
  { simpl. destruct (String.eqb s "") eqn:He; [|done].
    apply String.eqb_eq in He. by subst. }
  assert (H1 : negb (truthy (JStr s)) && truthy (data_tlong data) = false) by (by rewrite HX).
  rewrite H1. cbn [bindC]. by apply parseDate_tail.
Qed.

Lemma digitChar_isDigit (n : Z) : isDigit (digitChar n) = true.
Proof.
  unfold isDigit, digitChar.
  pose proof (Z.mod_pos_bound n 10 ltac:(lia)) as Hb.
  rewrite N_ascii_embedding by lia.
  apply andb_true_iff. split; apply N.leb_le; lia.
Qed.

(** The first ten characters of [toISOString] hold eight digits. *)
Lemma isoDate_digits (t : Z) :
  String.length (removeNonDigits (removeChar "-" (slice0 10 (toISOString t)))) = 8%nat.
Proof.
  rewrite removeNonDigits_removeChar by done.
  unfold removeNonDigits, slice0, toISOString.
  destruct (civilFromDays (t / 86400000)) as [[year month] day].
  rewrite length_str, !chars_str. unfold isoYear.
  destruct ((0 <=? year) && (year <=? 9999)); [|destruct (year <? 0)];
    cbn [padDigits app take];
    repeat first [ rewrite filter_cons_True by apply digitChar_isDigit
                 | rewrite filter_cons_False by (intros H; vm_compute in H; discriminate H) ];
    reflexivity.
Qed.

(** A date derived from the timestamp has exactly eight digits. *)
Lemma parseDate_of_timestamp (data : RawQuote) (t : Z) :
  truthy (data_d data) = false -> truthy (data_tlong data) = true ->
  TimeClip (Number (data_tlong data)) = Some t ->
  exists v, parseDate data = Normal v /\ isEightDigits v = true.
Proof.
  intros Hd Ht Hclip. unfold parseDate. rewrite Hd, Ht, Hclip. cbn [negb andb bindC].
  pose proof (isoDate_digits t) as Hlen.
  set (X := removeChar "-" (slice0 10 (toISOString t))) in *.
  rewrite parseDate_tail.
  - eexists. split; [done|]. apply eightDigits_slice. lia.
  - intros He. rewrite He in Hlen. discriminate Hlen.
Qed.

Lemma parseDate_of_long_text (data : RawQuote) (s : string) :
  data_d data = JStr s -> (8 <= String.length (removeNonDigits s))%nat ->
  exists v, parseDate data = Normal v /\ isEightDigits v = true.
Proof.
  intros Hd Hlen. eexists. split.
  - apply (parseDate_of_text data s Hd). intros He. rewrite He in Hlen. simpl in Hlen. lia.
  - by apply eightDigits_slice.
Qed.

(** [parseDate] returns when the date is absent or a string and the
    timestamp, when it is used, is a valid time. *)
Lemma parseDate_returns (data : RawQuote) :
  (truthy (data_d data) = false \/ exists s, data_d data = JStr s) ->
  (truthy (data_d data) = true \/ truthy (data_tlong data) = false
   \/ is_Some (TimeClip (Number (data_tlong data)))) ->
  exists v, parseDate data = Normal v.
Proof.
  intros Hd Ht.
  destruct (truthy (data_d data)) eqn:Htd.
  - destruct Hd as [?|[s Hs]]; [done|].
    unfold parseDate. rewrite Hs in *. rewrite Htd. cbn [negb andb bindC]. rewrite Htd.
    destruct (includesChar "/" s); cbn [bindC]; unfold formatDate;
      match goal with |- context [truthy ?x] => destruct (truthy x) end; simpl; eauto.
  - destruct (truthy (data_tlong data)) eqn:Htl.
    + destruct Ht as [?|[?|[t Hclip]]]; [done|done|].
      destruct (parseDate_of_timestamp data t Htd Htl Hclip) as (v & Hv & _). eauto.
    + unfold parseDate. rewrite Htd, Htl. cbn [negb andb bindC]. rewrite Htd.
      cbn [bindC]. unfold formatDate. rewrite Htd. eauto.
Qed.

(** ** Dates of the persisted rows *)

Lemma json_row_date (row : list JSValue) :
  isDateKey (rowDate row) = true -> rowDate (map jsonValue row) = rowDate row.
Proof.
  destruct row as [|v rest]; [done|]. unfold rowDate, arrayGet. simpl.
  by destruct v.
Qed.

Lemma merge_dated (existingData : list (list JSValue)) (s : string) (slots : list JSValue) :
  isDateKey (JStr s) = true ->
  (forall row, row ∈ existingData -> isDateKey (rowDate row) = true) ->
  forall row, row ∈ merge existingData (JStr s :: slots) -> isDateKey (rowDate row) = true.
Proof.
  intros Hs Hall row Hrow.
  assert (Hin : rowDate row ∈ map rowDate (merge existingData (JStr s :: slots)))
    by (by apply list_elem_of_fmap_2).
  assert (Hold : forall v, v ∈ map rowDate existingData -> isDateKey v = true).
  { intros v (r & -> & Hr)%list_elem_of_fmap. by apply Hall. }
  destruct (merge_dates existingData s slots) as [Heq | [Heq _]]; rewrite Heq in Hin.
  - by apply Hold.
  - apply elem_of_app in Hin as [Hin | Hin]; [by apply Hold|].
    apply list_elem_of_singleton in Hin. by rewrite Hin.
Qed.

Lemma saveData_dated (stockId : string) (data : list (list JSValue)) (st : Store) :
  datedStore st ->
  (forall row, row ∈ data -> isDateKey (rowDate row) = true) ->
  datedStore (saveData stockId data st).
Proof.
  intros Hst Hdata id series row Hlook Hrow. simpl in Hlook.
  destruct (decide (stockId = id)) as [->|Hne].
  - rewrite lookup_insert_eq in Hlook. injection Hlook as <-.
    apply list_elem_of_fmap in Hrow as (row' & -> & Hrow').
    rewrite json_row_date; by apply Hdata.
  - rewrite lookup_insert_ne in Hlook by done. by eapply Hst.
Qed.

(** [processBatchData] keeps "every persisted row has a date of one to eight
    digits". *)
Lemma processBatchData_dated (stocks : list Stock)
    (bestDataMap : gmap JSValue (option RawQuote)) (st : Store) :
  datedStore st -> datedStore (fst (processBatchData stocks bestDataMap st)).
Proof.
  revert st. induction stocks as [|stock rest IH]; intros st Hst; simpl; [done|].
  destruct (mapGet bestDataMap (JStr (stock_id stock))) as [data|]; [|by apply IH].
  destruct (parseDate data) as [todayDate|e] eqn:Hdate; simpl; [|done].
  destruct (truthy todayDate) eqn:Htruthy; simpl; [|by apply IH].
  apply IH. apply saveData_dated; [done|].
  pose proof (parseDate_key data todayDate Hdate) as Hkey. rewrite Htruthy in Hkey.
  destruct todayDate as [| | | |s]; try discriminate Hkey.
  apply merge_dated; [done|].
  intros row Hrow. unfold loadExistingData in Hrow.
  destruct (files st !! stock_id stock) as [series|] eqn:Hlook; simpl in Hrow.
  - by eapply Hst.
  - by apply not_elem_of_nil in Hrow.
Qed.

(** A date text of four digits is kept as it is and persisted. *)
Lemma C4_counterexample : ~ only_eight_digit_dates.
Proof.
  intros H.
  specialize (H [mkStock "2330" "TSMC" "twse"]
                (<[JStr "2330" := Some (quote "2330" "1085.0000" "2025" "100")]> ∅)
                "2330"
                [[JStr "2025"; Missing; Missing; Missing; JNum (numOfZ 1085); JNum (numOfZ 100)]]
                [JStr "2025"; Missing; Missing; Missing; JNum (numOfZ 1085); JNum (numOfZ 100)]).
  assert (Hrow : isEightDigits (JStr "2025") = true).
  { apply H; [vm_compute; reflexivity | apply list_elem_of_here]. }
  discriminate Hrow.
Qed.

(** C4, amended.  When [parseDate] returns, its result either passes
    [if (!todayDate)] and is a string of one to eight digits, or is [null] or
    the empty string, and then the record is passed over.  The date has
    exactly eight digits when the date text of the record holds at least eight
    digits and when it is derived from the timestamp.  [parseDate] returns
    whenever the date is absent or a string and the timestamp, if used, is a
    valid time.  Reconciling a batch keeps every persisted date at one to
    eight digits. *)
Theorem C4_date_normalisation :
  (forall (data : RawQuote) (v : JSValue),
      parseDate data = Normal v ->
      if truthy v then isDateKey v = true else v = JNull \/ v = JStr "")
  /\ (forall (data : RawQuote) (s : string),
        data_d data = JStr s -> (8 <= String.length (removeNonDigits s))%nat ->
        exists v, parseDate data = Normal v /\ isEightDigits v = true)
  /\ (forall (data : RawQuote) (t : Z),
        truthy (data_d data) = false -> truthy (data_tlong data) = true ->
        TimeClip (Number (data_tlong data)) = Some t ->
        exists v, parseDate data = Normal v /\ isEightDigits v = true)
  /\ (forall data : RawQuote,
        (truthy (data_d data) = false \/ exists s, data_d data = JStr s) ->
        (truthy (data_d data) = true \/ truthy (data_tlong data) = false
         \/ is_Some (TimeClip (Number (data_tlong data)))) ->
        exists v, parseDate data = Normal v)
  /\ (forall (stock : Stock) (rest : list Stock) (bestDataMap : gmap JSValue (option RawQuote))
             (st : Store) (data : RawQuote) (v : JSValue),
        mapGet bestDataMap (JStr (stock_id stock)) = Some data ->
        parseDate data = Normal v -> truthy v = false ->
        processBatchData (stock :: rest) bestDataMap st = processBatchData rest bestDataMap st)
  /\ (forall (stocks : list Stock) (bestDataMap : gmap JSValue (option RawQuote)) (st : Store),
        datedStore st -> datedStore (fst (processBatchData stocks bestDataMap st))).
Proof.
  split_and!.
  - apply parseDate_key.
  - apply parseDate_of_long_text.
  - apply parseDate_of_timestamp.
  - apply parseDate_returns.
  - apply processBatchData_undatable.
  - apply processBatchData_dated.
Qed.

Lemma C4_date_normalisation_witness :
  exists v, parseDate (quoteAt "2330" "1085.0000" "1733380200000") = Normal v
            /\ isEightDigits v = true.
Proof.
  destruct C4_date_normalisation as (_ & _ & H & _).
  apply (H (quoteAt "2330" "1085.0000" "1733380200000") 1733380200000);
    vm_compute; reflexivity.
Defined.

(** * Further properties *)

(** ** Batches *)

Lemma chunkLoop_concat {A} (fuel : nat) (array : list A) (size : nat) :
  (1 <= size)%nat -> (length array <= fuel)%nat ->
  concat (chunkLoop fuel array size) = array.
Proof.
  intros Hsize. revert array. induction fuel as [|fuel IH]; intros array Hfuel.
  - destruct array; [done | simpl in Hfuel; lia].
  - destruct array as [|x rest]; [done|].
    cbn [chunkLoop concat]. rewrite IH.
    + apply take_drop.
    + rewrite length_drop. simpl in *. lia.
Qed.

Lemma chunkLoop_lookup {A} (fuel : nat) (array : list A) (size i : nat) :
  (1 <= size)%nat -> (length array <= fuel)%nat ->
  chunkLoop fuel array size !! i
  = if decide (i * size < length array)%nat
    then Some (take size (drop (i * size) array)) else None.
Proof.
  intros Hsize. revert array i. induction fuel as [|fuel IH]; intros array i Hfuel.
  - destruct array; [|simpl in Hfuel; lia].
    rewrite decide_False by (simpl; lia). done.
  - destruct array as [|x rest].
    { rewrite decide_False by (simpl; lia). done. }
    cbn [chunkLoop]. destruct i as [|i].
    + rewrite decide_True by (simpl; lia). done.
    + cbn [lookup list_lookup]. rewrite IH by (rewrite length_drop; simpl in *; lia).
      rewrite length_drop, drop_drop.
      replace (size + i * size)%nat with (S i * size)%nat by lia.
      destruct (decide (i * size < length (x :: rest) - size)%nat),
               (decide (S i * size < length (x :: rest))%nat); try done; lia.
Qed.

(** X1.  [chunkArray] cuts the list into consecutive pieces: put end to end,
    the batches give the list back, every element once and in its order. *)
Theorem chunkArray_concat {A} (array : list A) (size : nat) :
  (1 <= size)%nat -> concat (chunkArray array size) = array.
Proof. intros Hsize. by apply chunkLoop_concat. Qed.

Lemma chunkArray_concat_witness :
  concat (chunkArray [1; 2; 3; 4; 5; 6; 7]%nat 3) = [1; 2; 3; 4; 5; 6; 7]%nat.
Proof. apply (chunkArray_concat [1; 2; 3; 4; 5; 6; 7]%nat 3). lia. Defined.

(** X2.  The batch of index [i] is [array.slice(i * size, i * size + size)]
    and exists exactly when [i * size] is below the length: no batch is
    empty, none is longer than [size], and all but the last hold exactly
    [size] elements. *)
Theorem chunkArray_slices {A} (array : list A) (size : nat) :
  (1 <= size)%nat ->
  (forall i, chunkArray array size !! i
             = if decide (i * size < length array)%nat
               then Some (take size (drop (i * size) array)) else None)
  /\ (forall i chunk, chunkArray array size !! i = Some chunk ->
        (1 <= length chunk <= size)%nat
        /\ (S i < length (chunkArray array size) -> length chunk = size)%nat).
Proof.
  intros Hsize.
  assert (Hlook : forall i, chunkArray array size !! i
             = if decide (i * size < length array)%nat
               then Some (take size (drop (i * size) array)) else None).
  { intros i. by apply chunkLoop_lookup. }
  split; [exact Hlook|]. intros i chunk Hi.
  pose proof Hi as Hi'. rewrite Hlook in Hi'.
  destruct (decide (i * size < length array)%nat) as [Hlt|]; [|done].
  injection Hi' as <-. rewrite length_take, length_drop. split; [lia|].
  intros Hnext. apply lookup_lt_is_Some_2 in Hnext as [next Hnext].
  rewrite Hlook in Hnext.
  destruct (decide (S i * size < length array)%nat) as [Hlt'|]; [|done]. lia.
Qed.

Lemma chunkArray_slices_witness :
  chunkArray [1; 2; 3; 4; 5; 6; 7]%nat 3 !! 2%nat = Some [7%nat].
Proof.
  rewrite (proj1 (chunkArray_slices [1; 2; 3; 4; 5; 6; 7]%nat 3 ltac:(lia)) 2%nat).
  reflexivity.
Defined.

(** ** Values and dates *)

(** X3.  [parseValue] returns the placeholder ['-'] or a number that is not
    NaN, and nothing else (no [null], no [undefined], no text); parsing its
    own result gives that result back. *)
Theorem parseValue_closed (val : JSValue) :
  (parseValue val = Missing \/ exists x, parseValue val = JNum x /\ isNaN x = false)
  /\ parseValue (parseValue val) = parseValue val.
Proof.
  assert (Hrange : parseValue val = Missing
                   \/ exists x, parseValue val = JNum x /\ isNaN x = false).
  { unfold parseValue.
    destruct (strictEq val (JStr "-") || strictEq val JNull || strictEq val JUndefined
              || strictEq val (JStr "")); [by left|].
    destruct (isNaN (Number val)) eqn:Hn; [by left | right; eauto]. }
  split; [exact Hrange|].
  destruct Hrange as [-> | (x & -> & Hx)]; [reflexivity|].
  unfold parseValue. simpl. by rewrite Hx.
Qed.

Lemma filter_all_digits (l : list ascii) :
  forallb isDigit l = true -> filter (fun ch => isDigit ch = true) l = l.
Proof.
  induction l as [|ch l IH]; [done|]. simpl. intros [Hch Hl]%andb_true_iff.
  rewrite filter_cons_True by done. by rewrite IH.
Qed.

(** X4.  A date text is read through its digits alone: the date is the
    first eight digits of the text, whatever separates them and whatever the
    timestamp is; two records whose date texts agree on those digits get the
    same date. *)
Theorem parseDate_digits_only (data1 data2 : RawQuote) (s1 s2 : string) :
  data_d data1 = JStr s1 -> data_d data2 = JStr s2 ->
  removeNonDigits s1 <> "" -> removeNonDigits s2 <> "" ->
  slice0 8 (removeNonDigits s1) = slice0 8 (removeNonDigits s2) ->
  parseDate data1 = Normal (JStr (slice0 8 (removeNonDigits s1)))
  /\ parseDate data2 = parseDate data1.
Proof.
  intros H1 H2 Hne1 Hne2 Heq.
  rewrite (parseDate_of_text data1 s1 H1 Hne1), (parseDate_of_text data2 s2 H2 Hne2).
  by rewrite Heq.
Qed.

Lemma parseDate_digits_only_witness :
  parseDate (quote "2330" "1085.0000" "2025/12/05" "100") = Normal (JStr "20251205")
  /\ parseDate (mkQuote (JStr "2330") (JStr "-") (JStr "2025-12-05 13:30") (JStr "1")
                        JUndefined JUndefined JUndefined JUndefined)
     = parseDate (quote "2330" "1085.0000" "2025/12/05" "100").
Proof.
  apply (parseDate_digits_only
           (quote "2330" "1085.0000" "2025/12/05" "100")
           (mkQuote (JStr "2330") (JStr "-") (JStr "2025-12-05 13:30") (JStr "1")
                    JUndefined JUndefined JUndefined JUndefined)
           "2025/12/05" "2025-12-05 13:30");
    [reflexivity | reflexivity | discriminate | discriminate | reflexivity].
Defined.

(** X5.  A date of one to eight digits is read back as it is: a record whose
    date text is a key of the store gets that key again, so the row of that
    day is found by [findIndex]. *)
Theorem parseDate_stable (data : RawQuote) (s : string) :
  isDateKey (JStr s) = true -> data_d data = JStr s -> parseDate data = Normal (JStr s).
Proof.
  intros Hkey Hd. unfold isDateKey in Hkey.
  apply andb_true_iff in Hkey as [[Hlo Hhi]%andb_true_iff Hdigits].
  apply Nat.leb_le in Hlo, Hhi.
  assert (Hrm : removeNonDigits s = s).
  { unfold removeNonDigits. rewrite filter_all_digits by exact Hdigits. apply str_chars. }
  assert (Hne : removeNonDigits s <> "").
  { rewrite Hrm. intros ->. simpl in Hlo. lia. }
  rewrite (parseDate_of_text data s Hd Hne), Hrm. do 2 f_equal.
  unfold slice0. rewrite take_ge by (rewrite length_chars; lia). apply str_chars.
Qed.

Lemma parseDate_stable_witness :
  parseDate (quote "2330" "-" "20251205" "100") = Normal (JStr "20251205").
Proof.
  apply (parseDate_stable (quote "2330" "-" "20251205" "100") "20251205"); reflexivity.
Defined.

(** ** Files *)

Lemma jsonValue_idem (v : JSValue) : jsonValue (jsonValue v) = jsonValue v.
Proof. destruct v as [| | |x|]; try done. by destruct x. Qed.

Lemma json_series_idem (data : list (list JSValue)) :
  map (map jsonValue) (map (map jsonValue) data) = map (map jsonValue) data.
Proof.
  rewrite map_map. apply map_ext. intros row. rewrite map_map. apply map_ext.
  apply jsonValue_idem.
Qed.


(** ** Shape of the merged series *)

(** X7.  [merge] never removes a row and never moves or alters a row of
    another date; the result holds a row of the new date with as many slots as
    the new row; and the series grows, by one row at its end, exactly when no
    row had the new date. *)
Theorem merge_structure (existingData : list (list JSValue)) (date : string)
    (slots : list JSValue) :
  let newRow := JStr date :: slots in
  (forall i row, existingData !! i = Some row -> rowDate row <> JStr date ->
     merge existingData newRow !! i = Some row)
  /\ (exists idx row, merge existingData newRow !! idx = Some row
        /\ rowDate row = JStr date /\ length row = length newRow)
  /\ (length (merge existingData newRow) = length existingData
      \/ merge existingData newRow = (existingData ++ [newRow])%list)
  /\ (merge existingData newRow = (existingData ++ [newRow])%list
      <-> forall row, row ∈ existingData -> rowDate row <> JStr date).
Proof.
  intros newRow.
  set (P := fun row : list JSValue => strictEq (arrayGet row 0) (arrayGet newRow 0) = true).
  destruct (list_find P existingData) as [[i er]|] eqn:Hf.
  - rewrite (merge_update _ _ i er Hf).
    apply list_find_Some in Hf as (Hl & HP & _).
    unfold P in HP. change (arrayGet newRow 0) with (JStr date) in HP.
    apply strictEq_str_r in HP.
    assert (Hlt : (i < length existingData)%nat) by (by eapply lookup_lt_Some).
    split_and!.
    + intros j row Hj Hne. rewrite list_lookup_insert_ne; [done|].
      intros <-. rewrite Hl in Hj. injection Hj as <-. by apply Hne.
    + exists i, (updatedRow er newRow). split_and!.
      * by apply list_lookup_insert_eq.
      * by apply updatedRow_date.
      * apply updatedRow_length.
    + left. apply length_insert.
    + split.
      * intros Heq. apply (f_equal length) in Heq.
        rewrite length_insert, length_app in Heq. simpl in Heq. lia.
      * intros Hall. exfalso. apply (Hall er); [|done].
        by eapply list_elem_of_lookup_2.
  - rewrite (merge_append _ _ Hf). apply list_find_None in Hf.
    split_and!.
    + intros j row Hj _. by apply lookup_app_l_Some.
    + exists (length existingData), newRow. split_and!; [|done|done].
      rewrite lookup_app_r by lia. by rewrite Nat.sub_diag.
    + by right.
    + split; [|done]. intros _ row Hrow Hdate.
      rewrite Forall_forall in Hf. apply (Hf row Hrow).
      unfold P. change (arrayGet newRow 0) with (JStr date). by apply strictEq_str_r.
Qed.

(** ** What a batch writes *)

(** X8.  [processBatchData] writes files of symbols of the batch only, in the
    order of the batch and at most once per entry, and only for symbols that
    have a best row; the file of every symbol it did not write is as it
    was. *)
Theorem processBatchData_writes (stocks : list Stock)
    (bestDataMap : gmap JSValue (option RawQuote)) (st : Store) :
  exists ws,
    writes (fst (processBatchData stocks bestDataMap st)) = (writes st ++ ws)%list
    /\ ws `sublist_of` (stock_id <$> stocks)
    /\ (forall stockId, stockId ∈ ws -> is_Some (mapGet bestDataMap (JStr stockId)))
    /\ (forall stockId, stockId ∉ ws ->
          files (fst (processBatchData stocks bestDataMap st)) !! stockId
          = files st !! stockId).
Proof.
  revert st. induction stocks as [|stock rest IH]; intros st.
  - exists []. simpl. rewrite app_nil_r. split_and!; [done|done| |done].
    intros ? Hin. by apply not_elem_of_nil in Hin.
  - cbn [processBatchData].
    destruct (mapGet bestDataMap (JStr (stock_id stock))) as [data|] eqn:Hget.
    2: { destruct (IH st) as (ws & Hws & Hsub & Hbest & Hfiles).
         exists ws. split_and!; [done| |done|done]. by apply sublist_cons. }
    destruct (parseDate data) as [todayDate|e].
    2: { exists []. simpl. rewrite app_nil_r. split_and!; [done| |  |done].
         - apply sublist_nil_l.
         - intros ? Hin. by apply not_elem_of_nil in Hin. }
    destruct (truthy todayDate); cbn [negb].
    2: { destruct (IH st) as (ws & Hws & Hsub & Hbest & Hfiles).
         exists ws. split_and!; [done| |done|done]. by apply sublist_cons. }
    destruct (IH (saveData (stock_id stock)
                    (merge (loadExistingData (stock_id stock) st)
                           (buildNewRow todayDate data)) st))
      as (ws & Hws & Hsub & Hbest & Hfiles).
    exists (stock_id stock :: ws). split_and!.
    + rewrite Hws. simpl. by rewrite <- app_assoc.
    + rewrite fmap_cons. by apply sublist_skip.
    + intros stockId [->|Hin]%elem_of_cons; [by rewrite Hget | by apply Hbest].
    + intros stockId [Hne Hnin]%not_elem_of_cons.
      rewrite Hfiles by done. simpl. by rewrite lookup_insert_ne.
Qed.

(** ** Invariants of the store *)

Lemma json_series_dates (series : list (list JSValue)) :
  (forall row, row ∈ series -> isDateKey (rowDate row) = true) ->
  map rowDate (map (map jsonValue) series) = map rowDate series.
Proof.
  intros Hall. rewrite map_map. apply map_ext_in. intros row Hrow.
  apply json_row_date. apply Hall. by apply list_elem_of_In.
Qed.

Lemma saveData_unique (stockId : string) (data : list (list JSValue)) (st : Store) :
  uniqueStore st ->
  (forall row, row ∈ data -> isDateKey (rowDate row) = true) ->
  uniqueDates data = true ->
  uniqueStore (saveData stockId data st).
Proof.
  intros Hst Hdated Hu id series Hlook. simpl in Hlook.
  destruct (decide (stockId = id)) as [->|Hne].
  - rewrite lookup_insert_eq in Hlook. injection Hlook as <-.
    unfold uniqueDates. by rewrite json_series_dates.
  - rewrite lookup_insert_ne in Hlook by done. by eapply Hst.
Qed.



(** ** A resolved symbol gets its row *)

Lemma merge_has_row (existingData : list (list JSValue)) (date : string)
    (slots : list JSValue) :
  exists idx row,
    merge existingData (JStr date :: slots) !! idx = Some row
    /\ rowDate row = JStr date /\ length row = S (length slots).
Proof.
  set (newRow := JStr date :: slots).
  set (P := fun row : list JSValue => strictEq (arrayGet row 0) (arrayGet newRow 0) = true).
  destruct (list_find P existingData) as [[i er]|] eqn:Hf.
  - rewrite (merge_update _ _ i er Hf).
    apply list_find_Some in Hf as (Hl & HP & _).
    unfold P in HP. change (arrayGet newRow 0) with (JStr date) in HP.
    apply strictEq_str_r in HP.
    exists i, (updatedRow er newRow). split_and!.
    + apply list_lookup_insert_eq. by eapply lookup_lt_Some.
    + by apply updatedRow_date.
    + apply updatedRow_length.
  - rewrite (merge_append _ _ Hf). exists (length existingData), newRow.
    split_and!; [|done|done]. rewrite lookup_app_r by lia. by rewrite Nat.sub_diag.
Qed.

Lemma saveData_merge_hasRow (stockId date : string) (data : RawQuote) (st : Store) :
  hasRowOf stockId date
    (saveData stockId (merge (loadExistingData stockId st) (buildNewRow (JStr date) data)) st).
Proof.
  destruct (merge_has_row (loadExistingData stockId st) date
              [parseValue (data_o data); parseValue (data_h data); parseValue (data_l data);
               parseValue (data_z data); parseValue (data_v data)])
    as (idx & row & Hidx & Hdate & Hlen).
  exists (map (map jsonValue) (merge (loadExistingData stockId st) (buildNewRow (JStr date) data))),
         (map jsonValue row).
  split_and!.
  - simpl. apply lookup_insert_eq.
  - apply list_elem_of_fmap. exists row. split; [done|]. by eapply list_elem_of_lookup_2.
  - destruct row as [|v rest]; [done|]. unfold rowDate, arrayGet in *. simpl in *.
    by rewrite Hdate.
  - by rewrite length_map.
Qed.

(** Once the file of a symbol holds the row of the day, the rest of the batch
    leaves it one. *)
Lemma processBatchData_keeps_row (stocks : list Stock)
    (bestDataMap : gmap JSValue (option RawQuote)) (st : Store)
    (stockId date : string) (data : RawQuote) :
  mapGet bestDataMap (JStr stockId) = Some data ->
  parseDate data = Normal (JStr date) ->
  hasRowOf stockId date st ->
  hasRowOf stockId date (fst (processBatchData stocks bestDataMap st)).
Proof.
  intros Hget Hdate. revert st. induction stocks as [|stock rest IH]; intros st Hst; [done|].
  cbn [processBatchData].
  destruct (mapGet bestDataMap (JStr (stock_id stock))) as [data'|] eqn:Hget'; [|by apply IH].
  destruct (parseDate data') as [todayDate|e] eqn:Hdate'; [|done].
  destruct (truthy todayDate) eqn:Htruthy; cbn [negb]; [|by apply IH].
  apply IH. destruct (decide (stock_id stock = stockId)) as [Heq|Hne].
  - rewrite Heq in *. rewrite Hget in Hget'. injection Hget' as <-.
    rewrite Hdate in Hdate'. injection Hdate' as <-. apply saveData_merge_hasRow.
  - destruct Hst as (series & row & Hlook & Hrow & Hd & Hlen).
    exists series, row. split_and!; [|done|done|done].
    simpl. by rewrite lookup_insert_ne.
Qed.

(** X10.  When [processBatchData] completes, every symbol of the batch whose
    best row has a date holds, in its file, a row of that date with six
    slots. *)
Theorem processBatchData_resolved_row (stocks : list Stock)
    (bestDataMap : gmap JSValue (option RawQuote)) (st : Store)
    (stock : Stock) (data : RawQuote) (date : string) :
  stock ∈ stocks ->
  mapGet bestDataMap (JStr (stock_id stock)) = Some data ->
  parseDate data = Normal (JStr date) -> date <> "" ->
  snd (processBatchData stocks bestDataMap st) = Normal () ->
  hasRowOf (stock_id stock) date (fst (processBatchData stocks bestDataMap st)).
Proof.
  intros Hin Hget Hdate Hne. revert st Hin.
  induction stocks as [|head rest IH]; intros st Hin Hdone.
  { by apply not_elem_of_nil in Hin. }
  destruct (decide (stock_id head = stock_id stock)) as [Heq|Hneq].
  - cbn [processBatchData]. rewrite Heq, Hget, Hdate.
    assert (Ht : truthy (JStr date) = true).
    { simpl. by destruct (String.eqb_spec date ""). }
    rewrite Ht. cbn [negb].
    apply (processBatchData_keeps_row rest bestDataMap _ (stock_id stock) date data Hget Hdate).
    apply saveData_merge_hasRow.
  - assert (Hrest : stock ∈ rest).
    { apply elem_of_cons in Hin as [->|?]; [done|done]. }
    cbn [processBatchData] in *.
    destruct (mapGet bestDataMap (JStr (stock_id head))) as [data'|]; [|by apply IH].
    destruct (parseDate data') as [todayDate|e]; [|done].
    destruct (truthy todayDate); cbn [negb] in *; by apply IH.
Qed.

Lemma processBatchData_resolved_row_witness :
  hasRowOf "2330" "20251205"
    (fst (processBatchData [mkStock "2330" "TSMC" "twse"]
            (<[JStr "2330" := Some (quote "2330" "-" "20251205" "100")]> ∅) emptyStore)).
Proof.
  apply (processBatchData_resolved_row [mkStock "2330" "TSMC" "twse"]
           (<[JStr "2330" := Some (quote "2330" "-" "20251205" "100")]> ∅) emptyStore
           (mkStock "2330" "TSMC" "twse") (quote "2330" "-" "20251205" "100") "20251205").
  - apply list_elem_of_here.
  - reflexivity.
  - reflexivity.
  - discriminate.
  - reflexivity.
Defined.

(** ** What the batch poller returns *)

Lemma batchLoop_fold (fuel : nat) (stocks : list Stock) (startTime : Z)
    (ps ps' : PollState) (w w' : World) :
  batchLoop fuel stocks startTime ps w = Some (ps', w') ->
  exists obs, observed (events w') = (observed (events w) ++ obs)%list
              /\ ps' = foldl foldRecord ps obs.
Proof.
  revert ps w. induction fuel as [|fuel IH]; intros ps w; rewrite batchLoop_unfold.
  - destruct (now w - startTime <? BATCH_FETCH_TIME); [discriminate|].
    intros [= <- <-]. exists []. by rewrite app_nil_r.
  - destruct (now w - startTime <? BATCH_FETCH_TIME).
    2: { intros [= <- <-]. exists []. by rewrite app_nil_r. }
    pose proof (fetch_step stocks w) as Hstep.
    destruct (fetchBatchStockData stocks w) as [dataArray w1].
    destruct Hstep as (_ & _ & _ & Hobs). cbv zeta.
    assert (Hps : (if (0 <? length dataArray)%nat then foldl foldRecord ps dataArray else ps)
                  = foldl foldRecord ps dataArray) by (by destruct dataArray).
    rewrite Hps.
    destruct (size (validStockIds (foldl foldRecord ps dataArray)) =? length stocks)%nat.
    + intros [= <- <-]. by exists dataArray.
    + intros Hrun. apply IH in Hrun as (obs & Hobs' & ->).
      exists (dataArray ++ obs)%list. split; [|by rewrite foldl_app].
      rewrite Hobs'. rewrite app_assoc. f_equal.
      destruct (now w1 - startTime <? BATCH_FETCH_TIME); simpl;
        by rewrite ?observed_sleep, Hobs.
Qed.

Lemma initPoll_none (stocks : list Stock) (key : JSValue) :
  mapGet (bestDataMap (initPoll stocks)) key = None.
Proof.
  unfold initPoll. simpl.
  assert (H : forall m : gmap JSValue (option RawQuote),
            mapGet m key = None ->
            mapGet (foldl (fun m stock => <[JStr (stock_id stock) := None]> m) m stocks) key
            = None).
  { induction stocks as [|stock rest IH]; intros m Hm; [done|]. simpl. apply IH.
    destruct (decide (JStr (stock_id stock) = key)) as [<-|Hne].
    - apply mapGet_insert_eq.
    - by rewrite mapGet_insert_ne. }
  apply H. unfold mapGet. by rewrite lookup_empty.
Qed.

(** The best row of a symbol after a list of records, from any state. *)
Lemma foldl_foldRecord_best (records : list RawQuote) (ps : PollState) (key : JSValue) :
  truthy key = true ->
  mapGet (bestDataMap (foldl foldRecord ps records)) key
  = match last (filter (fun d => data_c d = key /\ hasValidPrice d = true) records) with
    | Some d => Some d
    | None => match mapGet (bestDataMap ps) key with
              | Some b => Some b
              | None => head (filter (fun d => data_c d = key) records)
              end
    end.
Proof.
  intros Hkey. revert ps. induction records as [|d rest IH]; intros ps.
  { simpl. by destruct (mapGet (bestDataMap ps) key). }
  cbn [foldl]. rewrite IH. destruct (decide (data_c d = key)) as [Hk|Hk].
  - rewrite (filter_cons_True (fun x => data_c x = key)) by done.
    destruct (hasValidPrice d) eqn:Hv.
    + rewrite (filter_cons_True (fun x => data_c x = key /\ hasValidPrice x = true)) by done.
      rewrite last_cons.
      assert (Hbest : mapGet (bestDataMap (foldRecord ps d)) key = Some d).
      { unfold foldRecord. rewrite Hk, Hkey, Hv. simpl. apply mapGet_insert_eq. }
      rewrite Hbest. by destruct (last _).
    + rewrite (filter_cons_False (fun x => data_c x = key /\ hasValidPrice x = true))
        by (intros [_ ?]; congruence).
      assert (Hbest : mapGet (bestDataMap (foldRecord ps d)) key
                      = match mapGet (bestDataMap ps) key with
                        | Some b => Some b
                        | None => Some d
                        end).
      { unfold foldRecord. rewrite Hk, Hkey, Hv. simpl.
        destruct (mapGet (bestDataMap ps) key) eqn:Hb; simpl;
          [done | apply mapGet_insert_eq]. }
      rewrite Hbest. destruct (last _); [done|].
      by destruct (mapGet (bestDataMap ps) key).
  - rewrite (filter_cons_False (fun x => data_c x = key)) by done.
    rewrite (filter_cons_False (fun x => data_c x = key /\ hasValidPrice x = true))
      by (by intros [? _]).
    by rewrite foldRecord_other.
Qed.

(** X11.  What [fetchBatchWithRetry] returns for a symbol is decided by the
    records the provider delivered during the batch: the last record naming
    the symbol with a valid price if there is one, or else the first record
    naming the symbol, or else nothing.  This holds for every truthy symbol
    code, in the batch or not. *)
Theorem fetchBatchWithRetry_best_row (stocks : list Stock) (t0 : Z)
    (ticks : list (N * list RawQuote)) (key : JSValue) :
  truthy key = true ->
  match fetchBatchWithRetry stocks (mkWorld t0 ticks []) with
  | Some (bestDataMap, w') => mapGet bestDataMap key = bestOf key (observed (events w'))
  | None => False
  end.
Proof.
  intros Hkey. unfold fetchBatchWithRetry.
  destruct (batchLoop_total 10 stocks (now (mkWorld t0 ticks [])) (initPoll stocks)
              (mkWorld t0 ticks [])) as [[ps w'] Hrun];
    [unfold BATCH_FETCH_TIME, RETRY_INTERVAL; simpl; lia|].
  rewrite Hrun. apply batchLoop_fold in Hrun as (obs & Hobs & ->).
  simpl in Hobs. rewrite Hobs, foldl_foldRecord_best by done.
  unfold bestOf. by rewrite initPoll_none.
Qed.

Lemma fetchBatchWithRetry_best_row_witness :
  match fetchBatchWithRetry [mkStock "2330" "TSMC" "twse"]
          (mkWorld 0 [(500%N, [quote "2330" "-" "20251205" "100"]);
                      (500%N, [quote "2330" "1085.0000" "20251205" "120"])] []) with
  | Some (bestDataMap, w') =>
      mapGet bestDataMap (JStr "2330") = bestOf (JStr "2330") (observed (events w'))
  | None => False
  end.
Proof.
  apply (fetchBatchWithRetry_best_row [mkStock "2330" "TSMC" "twse"] 0
           [(500%N, [quote "2330" "-" "20251205" "100"]);
            (500%N, [quote "2330" "1085.0000" "20251205" "120"])] (JStr "2330")).
  reflexivity.
Defined.

(** ** Requests, sleeps and the deadline *)

Lemma countFetches_fetch (evs : list Event) (response : list RawQuote) :
  countFetches (evs ++ [EvFetch response]) = S (countFetches evs).
Proof. unfold countFetches. rewrite List.filter_app, length_app. simpl. lia. Qed.

Lemma countFetches_sleep (evs : list Event) (ms : Z) :
  countFetches (evs ++ [EvSleep ms]) = countFetches evs.
Proof. unfold countFetches. rewrite List.filter_app, length_app. simpl. lia. Qed.

Lemma countSleeps_fetch (evs : list Event) (response : list RawQuote) :
  countSleeps (evs ++ [EvFetch response]) = countSleeps evs.
Proof. unfold countSleeps. rewrite List.filter_app, length_app. simpl. lia. Qed.

Lemma countSleeps_sleep (evs : list Event) (ms : Z) :
  countSleeps (evs ++ [EvSleep ms]) = S (countSleeps evs).
Proof. unfold countSleeps. rewrite List.filter_app, length_app. simpl. lia. Qed.

Lemma fetch_events (stocks : list Stock) (w : World) :
  events (snd (fetchBatchStockData stocks w))
  = (events w ++ [EvFetch (fst (fetchBatchStockData stocks w))])%list.
Proof. unfold fetchBatchStockData. by destruct (feed w) as [|[latency a] rest]. Qed.

Lemma batchLoop_counts (fuel : nat) (stocks : list Stock) (startTime : Z)
    (ps ps' : PollState) (w w' : World) :
  batchLoop fuel stocks startTime ps w = Some (ps', w') ->
  exists f s,
    countFetches (events w') = (countFetches (events w) + f)%nat
    /\ countSleeps (events w') = (countSleeps (events w) + s)%nat
    /\ (s <= f <= fuel)%nat
    /\ (now w - startTime < BATCH_FETCH_TIME -> (1 <= f)%nat)
    /\ now w <= now w'.
Proof.
  revert ps w. induction fuel as [|fuel IH]; intros ps w; rewrite batchLoop_unfold.
  - destruct (now w - startTime <? BATCH_FETCH_TIME) eqn:Hc; [discriminate|].
    intros [= <- <-]. exists 0%nat, 0%nat. apply Z.ltb_ge in Hc. split_and!; lia.
  - destruct (now w - startTime <? BATCH_FETCH_TIME) eqn:Hc.
    2: { intros [= <- <-]. exists 0%nat, 0%nat. apply Z.ltb_ge in Hc. split_and!; lia. }
    pose proof (fetch_events stocks w) as Hev.
    pose proof (fetchBatchStockData_now stocks w) as Hnow.
    destruct (fetchBatchStockData stocks w) as [dataArray w1]. simpl in Hev, Hnow. cbv zeta.
    match goal with |- context [(size ?a =? ?b)%nat] => destruct (size a =? b)%nat end.
    + intros [= <- <-]. exists 1%nat, 0%nat. rewrite Hev, countFetches_fetch, countSleeps_fetch.
      split_and!; lia.
    + intros Hrun. apply IH in Hrun as (f & s & Hf & Hs & Hle & _ & Hmono).
      destruct (now w1 - startTime <? BATCH_FETCH_TIME); simpl in *.
      * rewrite Hev, countFetches_sleep, countFetches_fetch in Hf.
        rewrite Hev, countSleeps_sleep, countSleeps_fetch in Hs.
        exists (S f), (S s). unfold RETRY_INTERVAL in *. split_and!; lia.
      * rewrite Hev, countFetches_fetch in Hf. rewrite Hev, countSleeps_fetch in Hs.
        exists (S f), s. split_and!; lia.
Qed.

Lemma batchLoop_deadline (fuel : nat) (stocks : list Stock) (startTime : Z)
    (ps ps' : PollState) (w w' : World) (L : Z) :
  RETRY_INTERVAL <= L ->
  Forall (fun tick => Z.of_N (fst tick) <= L) (feed w) ->
  now w - startTime < BATCH_FETCH_TIME + L ->
  batchLoop fuel stocks startTime ps w = Some (ps', w') ->
  now w' - startTime < BATCH_FETCH_TIME + L.
Proof.
  intros HL. revert ps w. induction fuel as [|fuel IH]; intros ps w Hfeed Hnow;
    rewrite batchLoop_unfold.
  - destruct (now w - startTime <? BATCH_FETCH_TIME); [discriminate|]. by intros [= <- <-].
  - destruct (now w - startTime <? BATCH_FETCH_TIME) eqn:Hc; [|by intros [= <- <-]].
    apply Z.ltb_lt in Hc.
    pose proof (fetch_step stocks w) as Hstep.
    destruct (fetchBatchStockData stocks w) as [dataArray w1].
    destruct Hstep as (_ & Hn1 & Hf1 & _). cbv zeta.
    assert (Hnow1 : now w1 - startTime < BATCH_FETCH_TIME + L).
    { rewrite Hn1. destruct (feed w) as [|[latency a] rest]; [lia|].
      inversion Hfeed as [|? ? Hlat _]; subst. simpl in Hlat. lia. }
    assert (Hfeed1 : Forall (fun tick => Z.of_N (fst tick) <= L) (feed w1)).
    { rewrite Hf1. destruct (feed w) as [|tick rest]; [done|]. by inversion Hfeed. }
    match goal with |- context [(size ?a =? ?b)%nat] => destruct (size a =? b)%nat end;
      [by intros [= <- <-]|].
    apply IH.
    + by destruct (now w1 - startTime <? BATCH_FETCH_TIME).
    + destruct (now w1 - startTime <? BATCH_FETCH_TIME) eqn:Hc1; simpl; [|done].
      apply Z.ltb_lt in Hc1. lia.
Qed.

(** X12.  A run of [fetchBatchWithRetry] makes between one and ten requests
    and never more sleeps than requests; the clock does not go back; and when
    no request takes longer than [L] (at least the retry interval), the run
    ends less than [BATCH_FETCH_TIME + L] after it started, whatever the
    provider answers. *)
Theorem fetchBatchWithRetry_bounds (stocks : list Stock) (t0 : Z)
    (ticks : list (N * list RawQuote)) :
  match fetchBatchWithRetry stocks (mkWorld t0 ticks []) with
  | Some (_, w') =>
      (1 <= countFetches (events w') <= 10)%nat
      /\ (countSleeps (events w') <= countFetches (events w'))%nat
      /\ t0 <= now w'
      /\ (forall L, RETRY_INTERVAL <= L ->
            Forall (fun tick => Z.of_N (fst tick) <= L) ticks ->
            now w' - t0 < BATCH_FETCH_TIME + L)
  | None => False
  end.
Proof.
  unfold fetchBatchWithRetry.
  destruct (batchLoop_total 10 stocks (now (mkWorld t0 ticks [])) (initPoll stocks)
              (mkWorld t0 ticks [])) as [[ps w'] Hrun];
    [unfold BATCH_FETCH_TIME, RETRY_INTERVAL; simpl; lia|].
  rewrite Hrun.
  destruct (batchLoop_counts _ _ _ _ _ _ _ Hrun) as (f & s & Hf & Hs & Hle & Hone & Hmono).
  simpl in Hf, Hs, Hone, Hmono. unfold BATCH_FETCH_TIME in Hone.
  split_and!; try lia.
  intros L HL Hticks.
  apply (batchLoop_deadline 10 stocks t0 (initPoll stocks) ps (mkWorld t0 ticks []) w' L
           HL Hticks); [|exact Hrun].
  simpl. unfold BATCH_FETCH_TIME, RETRY_INTERVAL in *. lia.
Qed.

Lemma fetchBatchWithRetry_bounds_witness :
  match fetchBatchWithRetry [mkStock "2330" "TSMC" "twse"]
          (mkWorld 0 [(15000%N, []); (14000%N, [quote "2330" "-" "20251205" "100"])] []) with
  | Some (_, w') => now w' - 0 < BATCH_FETCH_TIME + 15000
  | None => False
  end.
Proof.
  generalize (fetchBatchWithRetry_bounds [mkStock "2330" "TSMC" "twse"] 0
                [(15000%N, []); (14000%N, [quote "2330" "-" "20251205" "100"])]).
  destruct (fetchBatchWithRetry _ _) as [[bestDataMap w']|]; [|done].
  intros (_ & _ & _ & Hdeadline). apply Hdeadline.
  - unfold RETRY_INTERVAL. lia.
  - repeat constructor; simpl; lia.
Defined.


(** ** The per-symbol poller *)

Lemma heads_fetch (evs : list Event) (response : list RawQuote) :
  heads (evs ++ [EvFetch response])
  = (heads evs ++ match head response with Some d => [d] | None => [] end)%list.
Proof. unfold heads. rewrite omap_app. simpl. by destruct (head response). Qed.

Lemma heads_sleep (evs : list Event) (ms : Z) : heads (evs ++ [EvSleep ms]) = heads evs.
Proof. unfold heads. rewrite omap_app. simpl. by rewrite app_nil_r. Qed.

Lemma retryLoop_result (fuel : nat) (stock : Stock) (startTime : Z)
    (lastValidData r : option RawQuote) (w w' : World) :
  Forall (fun d => hasValidPrice d = false) (heads (events w)) ->
  lastValidData = last (heads (events w)) ->
  countSleeps (events w) = countFetches (events w) ->
  retryLoop fuel stock startTime lastValidData w = Some (r, w') ->
  (countFetches (events w') <= countFetches (events w) + fuel)%nat
  /\ ((Forall (fun d => hasValidPrice d = false) (heads (events w'))
       /\ r = last (heads (events w'))
       /\ countSleeps (events w') = countFetches (events w'))
      \/ (exists pre d,
            heads (events w') = (pre ++ [d])%list
            /\ Forall (fun d => hasValidPrice d = false) pre
            /\ hasValidPrice d = true /\ r = Some d
            /\ S (countSleeps (events w')) = countFetches (events w'))).
Proof.
  revert lastValidData w. induction fuel as [|fuel IH]; intros lvd w Hinv Hlvd Hcnt;
    rewrite retryLoop_unfold.
  - destruct (now w - startTime <? MAX_RETRY_TIME); [discriminate|].
    intros [= <- <-]. split; [lia|]. by left.
  - destruct (now w - startTime <? MAX_RETRY_TIME).
    2: { intros [= <- <-]. split; [lia|]. by left. }
    unfold fetchStockData. pose proof (fetch_events [stock] w) as Hev.
    destruct (fetchBatchStockData [stock] w) as [msgArray w1]. simpl in Hev.
    destruct (head msgArray) as [data|] eqn:Hhead.
    + destruct (hasValidPrice data) eqn:Hv.
      * intros [= <- <-]. rewrite Hev, countFetches_fetch, countSleeps_fetch, heads_fetch, Hhead.
        split; [lia|]. right. exists (heads (events w)), data. by split_and!; [| | | |lia].
      * intros Hrun. apply IH in Hrun as [Hle Hres].
        -- split; [|exact Hres]. simpl in Hle.
           rewrite Hev, countFetches_sleep, countFetches_fetch in Hle. lia.
        -- simpl. rewrite heads_sleep, Hev, heads_fetch, Hhead.
           apply Forall_app. split; [done|]. by constructor.
        -- simpl. rewrite heads_sleep, Hev, heads_fetch, Hhead. by rewrite last_snoc.
        -- simpl. rewrite Hev, countSleeps_sleep, countSleeps_fetch,
             countFetches_sleep, countFetches_fetch. lia.
    + intros Hrun. apply IH in Hrun as [Hle Hres].
      * split; [|exact Hres]. simpl in Hle.
        rewrite Hev, countFetches_sleep, countFetches_fetch in Hle. lia.
      * simpl. rewrite heads_sleep, Hev, heads_fetch, Hhead. by rewrite app_nil_r.
      * simpl. rewrite heads_sleep, Hev, heads_fetch, Hhead. by rewrite app_nil_r.
      * simpl. rewrite Hev, countSleeps_sleep, countSleeps_fetch,
          countFetches_sleep, countFetches_fetch. lia.
Qed.

(** X13.  [fetchWithRetry] of the per-symbol script makes at most ten
    requests and looks at the first record of each answer.  Either none of
    those records has a valid price: it returns the last of them ([null] when
    there is none), having slept after every request.  Or the last request
    brought the first record with a valid price: it returns that record at
    once, without sleeping after the request. *)
Theorem fetchWithRetry_result (stock : Stock) (t0 : Z) (ticks : list (N * list RawQuote)) :
  match fetchWithRetry stock (mkWorld t0 ticks []) with
  | Some (r, w') =>
      (countFetches (events w') <= 10)%nat
      /\ ((Forall (fun d => hasValidPrice d = false) (heads (events w'))
           /\ r = last (heads (events w'))
           /\ countSleeps (events w') = countFetches (events w'))
          \/ (exists pre d,
                heads (events w') = (pre ++ [d])%list
                /\ Forall (fun d => hasValidPrice d = false) pre
                /\ hasValidPrice d = true /\ r = Some d
                /\ S (countSleeps (events w')) = countFetches (events w')))
  | None => False
  end.
Proof.
  destruct (fetchWithRetry_total stock (mkWorld t0 ticks [])) as [[r w'] Hrun].
  rewrite Hrun. unfold fetchWithRetry in Hrun.
  by apply retryLoop_result in Hrun.
Qed.

(** ** Leaving the batch loop after the first request *)

Lemma batchLoop_events (fuel : nat) (stocks : list Stock) (startTime : Z)
    (ps ps' : PollState) (w w' : World) :
  batchLoop fuel stocks startTime ps w = Some (ps', w') ->
  exists evs, events w' = (events w ++ evs)%list.
Proof.
  revert ps w. induction fuel as [|fuel IH]; intros ps w; rewrite batchLoop_unfold.
  - destruct (now w - startTime <? BATCH_FETCH_TIME); [discriminate|].
    intros [= <- <-]. exists []. by rewrite app_nil_r.
  - destruct (now w - startTime <? BATCH_FETCH_TIME).
    2: { intros [= <- <-]. exists []. by rewrite app_nil_r. }
    pose proof (fetch_events stocks w) as Hev.
    destruct (fetchBatchStockData stocks w) as [dataArray w1]. simpl in Hev. cbv zeta.
    match goal with |- context [(size ?a =? ?b)%nat] => destruct (size a =? b)%nat end.
    + intros [= <- <-]. rewrite Hev. by eexists.
    + intros (evs & Hevs)%IH. rewrite Hevs.
      destruct (now w1 - startTime <? BATCH_FETCH_TIME); simpl; rewrite Hev;
        rewrite <- ?app_assoc; by eexists.
Qed.

(** X14.  [fetchBatchWithRetry] returns after its first request, without
    sleeping, exactly when the number of distinct symbol codes that the first
    answer gives a valid price to equals the length of the batch, or the
    request itself outlasted the deadline.  The count is of codes in the
    answer, not of symbols of the batch. *)
Theorem fetchBatchWithRetry_first_tick (stocks : list Stock) (t0 : Z) (latency : N)
    (dataArray : list RawQuote) (rest : list (N * list RawQuote)) :
  match fetchBatchWithRetry stocks (mkWorld t0 ((latency, dataArray) :: rest) []) with
  | Some (_, w') =>
      events w' = [EvFetch dataArray]
      <-> (size (list_to_set (C := gset JSValue)
                   (data_c <$> filter (fun d => truthy (data_c d) = true
                                                /\ hasValidPrice d = true) dataArray))
           = length stocks
           \/ BATCH_FETCH_TIME <= Z.of_N latency)
  | None => False
  end.
Proof.
  unfold fetchBatchWithRetry.
  change (now (mkWorld t0 ((latency, dataArray) :: rest) [])) with t0.
  change 10%nat with (S 9). rewrite batchLoop_unfold.
  change (now (mkWorld t0 ((latency, dataArray) :: rest) [])) with t0.
  rewrite Z.sub_diag. change (0 <? BATCH_FETCH_TIME) with true. cbv iota.
  unfold fetchBatchStockData. cbn [feed now events app].
  assert (Hps : (if (0 <? length dataArray)%nat
                 then foldl foldRecord (initPoll stocks) dataArray else initPoll stocks)
                = foldl foldRecord (initPoll stocks) dataArray) by (by destruct dataArray).
  rewrite Hps, foldl_foldRecord_validStockIds.
  change (validStockIds (initPoll stocks)) with (∅ : gset JSValue).
  rewrite (left_id_L ∅ (∪)).
  set (n := size _).
  destruct (n =? length stocks)%nat eqn:Hn.
  - apply Nat.eqb_eq in Hn. split; [by left | done].
  - apply Nat.eqb_neq in Hn.
    replace (t0 + Z.of_N latency - t0) with (Z.of_N latency) by lia.
    destruct (Z.of_N latency <? BATCH_FETCH_TIME) eqn:Hlat.
    + apply Z.ltb_lt in Hlat.
      destruct (batchLoop_total 9 stocks t0 (foldl foldRecord (initPoll stocks) dataArray)
                  (delay RETRY_INTERVAL
                     (mkWorld (t0 + Z.of_N latency) rest [EvFetch dataArray])))
        as [[ps w'] Hrun].
      { simpl. unfold BATCH_FETCH_TIME, RETRY_INTERVAL in *. lia. }
      rewrite Hrun. apply batchLoop_events in Hrun as (evs & Hevs). simpl in Hevs.
      split; [|intros [?|?]; [done | lia]].
      rewrite Hevs. discriminate.
    + apply Z.ltb_ge in Hlat. rewrite batchLoop_unfold. simpl.
      replace (t0 + Z.of_N latency - t0) with (Z.of_N latency) by lia.
      assert (Hc : (Z.of_N latency <? BATCH_FETCH_TIME) = false) by (by apply Z.ltb_ge).
      rewrite Hc. split; [by right | done].
Qed.

(** ** The per-symbol step *)

(** X15.  [processStock] writes at most one file, the file of its symbol, and
    at most once; the files of the other symbols are as they were; and it
    writes nothing when it throws. *)
Theorem processStock_writes (stock : Stock) (w : World) (st : Store) :
  match processStock stock w st with
  | Some (_, st', r) =>
      (writes st' = writes st \/ writes st' = (writes st ++ [stock_id stock])%list)
      /\ (forall other, other <> stock_id stock -> files st' !! other = files st !! other)
      /\ (forall e, r = Throw e -> st' = st)
  | None => False
  end.
Proof.
  unfold processStock.
  destruct (fetchWithRetry_total stock w) as [[r w'] ->].
  destruct r as [todayData|]; [|by split_and!; [left| |]].
  destruct (parseDate todayData) as [todayDate|e]; [|by split_and!; [left| |]].
  destruct (truthy todayDate); cbn [negb]; [|by split_and!; [left| |]].
  split_and!.
  - by right.
  - intros other Hne. simpl. by rewrite lookup_insert_ne.
  - discriminate.
Qed.

(** ** Runs that cannot fail *)













(** ** The files a run may touch *)

Lemma processBatchData_within (stocks : list Stock)
    (bestDataMap : gmap JSValue (option RawQuote)) (st : Store) :
  exists ws,
    writes (fst (processBatchData stocks bestDataMap st)) = (writes st ++ ws)%list
    /\ (forall stockId, stockId ∈ ws -> stockId ∈ (stock_id <$> stocks))
    /\ (forall stockId, stockId ∉ (stock_id <$> stocks) ->
          files (fst (processBatchData stocks bestDataMap st)) !! stockId
          = files st !! stockId).
Proof.
  revert st. induction stocks as [|stock rest IH]; intros st.
  - exists []. simpl. rewrite app_nil_r. split_and!; [done| |done].
    intros ? Hin. by apply not_elem_of_nil in Hin.
  - assert (Hskip : forall st0,
              exists ws,
                writes (fst (processBatchData rest bestDataMap st0)) = (writes st0 ++ ws)%list
                /\ (forall stockId, stockId ∈ ws -> stockId ∈ (stock_id <$> stock :: rest))
                /\ (forall stockId, stockId ∉ (stock_id <$> stock :: rest) ->
                      files (fst (processBatchData rest bestDataMap st0)) !! stockId
                      = files st0 !! stockId)).
    { intros st0. destruct (IH st0) as (ws & Hws & Hin & Hfiles).
      exists ws. split_and!; [done| |].
      - intros id Hid. rewrite fmap_cons. apply list_elem_of_further. by apply Hin.
      - intros id Hid. apply Hfiles. rewrite fmap_cons in Hid.
        by apply not_elem_of_cons in Hid as [_ ?]. }
    cbn [processBatchData].
    destruct (mapGet bestDataMap (JStr (stock_id stock))) as [data|]; [|apply Hskip].
    destruct (parseDate data) as [todayDate|e].
    2: { exists []. simpl. rewrite app_nil_r. split_and!; [done| |done].
         intros ? Hin. by apply not_elem_of_nil in Hin. }
    destruct (truthy todayDate); cbn [negb]; [|apply Hskip].
    destruct (Hskip (saveData (stock_id stock)
                       (merge (loadExistingData (stock_id stock) st)
                              (buildNewRow todayDate data)) st))
      as (ws & Hws & Hin & Hfiles).
    exists (stock_id stock :: ws). split_and!.
    + rewrite Hws. simpl. by rewrite <- app_assoc.
    + intros id [->|Hid]%elem_of_cons; [rewrite fmap_cons; apply list_elem_of_here|].
      by apply Hin.
    + intros id Hid. rewrite Hfiles by done. simpl. rewrite lookup_insert_ne; [done|].
      intros <-. apply Hid. rewrite fmap_cons. apply list_elem_of_here.
Qed.

Lemma runBatches_within (batches : list (list Stock)) (w : World) (st : Store) :
  match runBatches batches w st with
  | Some (_, st', _) =>
      exists ws,
        writes st' = (writes st ++ ws)%list
        /\ (forall stockId, stockId ∈ ws -> stockId ∈ (stock_id <$> concat batches))
        /\ (forall stockId, stockId ∉ (stock_id <$> concat batches) ->
              files st' !! stockId = files st !! stockId)
  | None => False
  end.
Proof.
  revert w st. induction batches as [|batch rest IH]; intros w st; simpl.
  - exists []. rewrite app_nil_r. split_and!; [done| |done].
    intros ? Hin. by apply not_elem_of_nil in Hin.
  - destruct (fetchBatchWithRetry_total batch w) as [[bestDataMap w1] ->].
    destruct (processBatchData_within batch bestDataMap st) as (ws & Hws & Hin & Hfiles).
    destruct (processBatchData batch bestDataMap st) as [st1 r]. simpl in Hws, Hfiles.
    destruct r as [[]|e].
    + specialize (IH w1 st1). destruct (runBatches rest w1 st1) as [[[w2 st2] r2]|]; [|done].
      destruct IH as (ws2 & Hws2 & Hin2 & Hfiles2).
      exists (ws ++ ws2)%list. split_and!.
      * by rewrite Hws2, Hws, app_assoc.
      * intros id [Hid|Hid]%elem_of_app; rewrite fmap_app; apply elem_of_app;
          [left; by apply Hin | right; by apply Hin2].
      * intros id Hid. rewrite fmap_app in Hid.
        apply not_elem_of_app in Hid as [Hid1 Hid2].
        rewrite Hfiles2 by done. by apply Hfiles.
    + exists ws. split_and!; [done| |].
      * intros id Hid. rewrite fmap_app. apply elem_of_app. left. by apply Hin.
      * intros id Hid. rewrite fmap_app in Hid.
        apply not_elem_of_app in Hid as [Hid1 _]. by apply Hfiles.
Qed.

(** X18.  Whatever the stock list, the provider and the store, the batch
    [main] reaches its end, writes only files of symbols of the allow-list
    [TARGET_STOCK_IDS], and leaves the file of every other symbol as it
    was. *)
Theorem main_allow_list (stockList : list Stock) (w : World) (st : Store) :
  match main stockList w st with
  | Some (_, st', _) =>
      exists ws,
        writes st' = (writes st ++ ws)%list
        /\ (forall stockId, stockId ∈ ws -> stockId ∈ TARGET_STOCK_IDS)
        /\ (forall stockId, stockId ∉ TARGET_STOCK_IDS ->
              files st' !! stockId = files st !! stockId)
  | None => False
  end.
Proof.
  unfold main.
  set (stocks := if (length (loadStockList stockList) =? 0)%nat
                 then map (fun id => mkStock id id "twse") TARGET_STOCK_IDS
                 else loadStockList stockList).
  assert (Hallow : forall stockId, stockId ∈ (stock_id <$> stocks) ->
                     stockId ∈ TARGET_STOCK_IDS).
  { intros id (stock & -> & Hstock)%list_elem_of_fmap. subst stocks.
    destruct (length (loadStockList stockList) =? 0)%nat.
    - apply list_elem_of_In, in_map_iff in Hstock as (id & <- & Hid). simpl.
      by apply list_elem_of_In.
    - unfold loadStockList in Hstock. by apply list_elem_of_filter in Hstock as [? _]. }
  pose proof (runBatches_within (chunkArray stocks BATCH_SIZE) w st) as Hrun.
  assert (Hcat : concat (chunkArray stocks BATCH_SIZE) = stocks)
    by (apply chunkLoop_concat; [unfold BATCH_SIZE; lia | done]).
  rewrite Hcat in Hrun.
  destruct (runBatches (chunkArray stocks BATCH_SIZE) w st) as [[[w' st'] r]|]; [|done].
  destruct Hrun as (ws & Hws & Hin & Hfiles).
  assert (Hgoal : exists ws0,
            writes st' = (writes st ++ ws0)%list
            /\ (forall stockId, stockId ∈ ws0 -> stockId ∈ TARGET_STOCK_IDS)
            /\ (forall stockId, stockId ∉ TARGET_STOCK_IDS ->
                  files st' !! stockId = files st !! stockId)).
  { exists ws. split_and!; [done| |].
    - intros id Hid. by apply Hallow, Hin.
    - intros id Hid. apply Hfiles. intros Hc. by apply Hid, Hallow. }
  by destruct r.
Qed.

(** ** Valid prices are kept *)



(** ** Reconciling twice *)

Lemma jsonValue_dash (v : JSValue) :
  strictEq (jsonValue v) (JStr "-") = strictEq v (JStr "-").
Proof. destruct v as [| | |x|]; try done. by destruct x. Qed.

Lemma json_resolve_idem (e n : JSValue) :
  jsonValue (resolve (jsonValue (resolve e n)) n) = jsonValue (resolve e n).
Proof.
  unfold resolve. rewrite !jsonValue_dash.
  destruct (strictEq n (JStr "-")) eqn:Hn; simpl; [|done].
  destruct (strictEq e (JStr "-")) eqn:He; simpl.
  - by rewrite Hn.
  - rewrite He. simpl. apply jsonValue_idem.
Qed.

Lemma arrayGet_json (row : list JSValue) (idx : nat) :
  (idx < length row)%nat -> arrayGet (map jsonValue row) idx = jsonValue (arrayGet row idx).
Proof.
  intros Hlt. unfold arrayGet. change (map jsonValue row) with (jsonValue <$> row).
  rewrite list_lookup_fmap. by destruct (lookup_lt_is_Some_2 row idx Hlt) as [x ->].
Qed.

Lemma json_updatedRow_idem (existingRow newRow : list JSValue) :
  map jsonValue (updatedRow (map jsonValue (updatedRow existingRow newRow)) newRow)
  = map jsonValue (updatedRow existingRow newRow).
Proof.
  apply list_eq. intros i.
  change (map jsonValue) with (fmap (M:=list) jsonValue).
  rewrite !list_lookup_fmap. unfold updatedRow at 1 3. rewrite !list_lookup_imap.
  destruct (newRow !! i) as [n|] eqn:Hn; [|done]. simpl. f_equal.
  assert (Hlt : (i < length newRow)%nat) by (by eapply lookup_lt_Some).
  change (fmap (M:=list) jsonValue) with (map jsonValue).
  rewrite arrayGet_json by (by rewrite updatedRow_length).
  rewrite arrayGet_updatedRow by done.
  replace (arrayGet newRow i) with n by (unfold arrayGet; by rewrite Hn).
  apply json_resolve_idem.
Qed.

Lemma json_row_matches (row : list JSValue) (date : string) :
  strictEq (arrayGet (map jsonValue row) 0) (JStr date) = strictEq (arrayGet row 0) (JStr date).
Proof.
  destruct row as [|v rest]; [done|]. unfold arrayGet. simpl.
  destruct v as [| | |x|]; try done. by destruct x.
Qed.

(** The row [findIndex] finds in the merged series. *)
Lemma merge_found (existingData : list (list JSValue)) (date : string) (slots : list JSValue) :
  let newRow := JStr date :: slots in
  exists idx e,
    list_find (fun row => strictEq (arrayGet row 0) (arrayGet newRow 0) = true)
              (merge existingData newRow)
    = Some (idx, updatedRow e newRow).
Proof.
  intros newRow.
  set (P := fun row : list JSValue => strictEq (arrayGet row 0) (arrayGet newRow 0) = true).
  destruct (list_find P existingData) as [[i er]|] eqn:Hf.
  - rewrite (merge_update _ _ i er Hf). exists i, er. by apply merge_find_again.
  - rewrite (merge_append _ _ Hf). exists (length existingData), newRow.
    rewrite updatedRow_same, list_find_app_r by exact Hf. simpl.
    destruct (decide (P newRow)) as [|Hn]; [done|].
    exfalso. apply Hn. unfold P. by apply strictEq_str_r.
Qed.

(** Reconciling what was written with the same row, and writing again, gives
    the same file. *)
Lemma merge_json_idem (existingData : list (list JSValue)) (date : string)
    (slots : list JSValue) :
  let newRow := JStr date :: slots in
  map (map jsonValue) (merge (map (map jsonValue) (merge existingData newRow)) newRow)
  = map (map jsonValue) (merge existingData newRow).
Proof.
  intros newRow.
  destruct (merge_found existingData date slots) as (idx & e & Hfound).
  fold newRow in Hfound.
  set (M := merge existingData newRow) in *.
  set (P := fun row : list JSValue => strictEq (arrayGet row 0) (arrayGet newRow 0) = true).
  assert (Hjson : list_find P (map (map jsonValue) M)
                  = Some (idx, map jsonValue (updatedRow e newRow))).
  { change (map (map jsonValue) M) with (map jsonValue <$> M).
    rewrite list_find_fmap.
    rewrite (list_find_ext _ P).
    - fold P in Hfound. by rewrite Hfound.
    - intros row. unfold P. simpl. change (arrayGet newRow 0) with (JStr date).
      by rewrite json_row_matches. }
  rewrite (merge_update _ _ _ _ Hjson).
  change (map (map jsonValue)) with (fmap (M:=list) (map jsonValue)).
  rewrite list_fmap_insert, json_updatedRow_idem.
  change (fmap (M:=list) (map jsonValue)) with (map (map jsonValue)).
  rewrite json_series_idem. apply list_insert_id.
  apply list_find_Some in Hfound as (Hl & _ & _).
  change (map (map jsonValue) M) with (map jsonValue <$> M).
  by rewrite list_lookup_fmap, Hl.
Qed.

Lemma parseDate_truthy_str (data : RawQuote) (v : JSValue) :
  parseDate data = Normal v -> truthy v = true -> exists date, v = JStr date.
Proof. intros [-> | (s & -> & _)]%parseDate_shape; [done | eauto]. Qed.

Lemma settledAt_files (bestDataMap : gmap JSValue (option RawQuote)) (st st' : Store)
    (stockId : string) :
  files st' = files st -> settledAt bestDataMap st stockId -> settledAt bestDataMap st' stockId.
Proof.
  intros Hf Hs data date Hget Hdate. unfold loadExistingData. rewrite Hf.
  by apply Hs.
Qed.

Lemma settledAt_saveData (bestDataMap : gmap JSValue (option RawQuote)) (st : Store)
    (stockId : string) (data : RawQuote) (date : string) :
  mapGet bestDataMap (JStr stockId) = Some data ->
  parseDate data = Normal (JStr date) ->
  settledAt bestDataMap
    (saveData stockId (merge (loadExistingData stockId st) (buildNewRow (JStr date) data)) st)
    stockId.
Proof.
  intros Hget Hdate data' date' Hget' Hdate'.
  assert (data' = data) by congruence. subst data'.
  assert (date' = date) by congruence. subst date'.
  unfold loadExistingData at 1 2. simpl. rewrite !lookup_insert_eq. simpl.
  f_equal. symmetry. apply merge_json_idem.
Qed.

Lemma settledAt_saveData_keeps (bestDataMap : gmap JSValue (option RawQuote)) (st : Store)
    (stockId other : string) (data : RawQuote) (date : string) :
  mapGet bestDataMap (JStr other) = Some data ->
  parseDate data = Normal (JStr date) ->
  settledAt bestDataMap st stockId ->
  settledAt bestDataMap
    (saveData other (merge (loadExistingData other st) (buildNewRow (JStr date) data)) st)
    stockId.
Proof.
  intros Hget Hdate Hs. destruct (decide (stockId = other)) as [->|Hne].
  - by apply settledAt_saveData.
  - intros data' date' Hget' Hdate'. unfold loadExistingData. simpl.
    rewrite lookup_insert_ne by done. by apply Hs.
Qed.

Lemma processBatchData_settled_keeps (stocks : list Stock)
    (bestDataMap : gmap JSValue (option RawQuote)) (st : Store) (stockId : string) :
  settledAt bestDataMap st stockId ->
  settledAt bestDataMap (fst (processBatchData stocks bestDataMap st)) stockId.
Proof.
  revert st. induction stocks as [|stock rest IH]; intros st Hs; [done|]. simpl.
  destruct (mapGet bestDataMap (JStr (stock_id stock))) as [data|] eqn:Hget; [|by apply IH].
  destruct (parseDate data) as [v|e] eqn:Hdate; [|done].
  destruct (truthy v) eqn:Hv; simpl; [|by apply IH].
  destruct (parseDate_truthy_str _ _ Hdate Hv) as [date ->].
  apply IH. by apply settledAt_saveData_keeps.
Qed.

Lemma processBatchData_settles (stocks : list Stock)
    (bestDataMap : gmap JSValue (option RawQuote)) (st : Store) (stockId : string) :
  stockId ∈ writtenIds stocks bestDataMap ->
  settledAt bestDataMap (fst (processBatchData stocks bestDataMap st)) stockId.
Proof.
  revert st. induction stocks as [|stock rest IH]; intros st Hin; simpl in *.
  { by apply elem_of_nil in Hin. }
  destruct (mapGet bestDataMap (JStr (stock_id stock))) as [data|] eqn:Hget; [|by apply IH].
  destruct (parseDate data) as [v|e] eqn:Hdate; [|by apply elem_of_nil in Hin].
  destruct (truthy v) eqn:Hv; simpl; [|by apply IH].
  destruct (parseDate_truthy_str _ _ Hdate Hv) as [date ->].
  apply elem_of_cons in Hin as [->|Hin]; [|by apply IH].
  apply processBatchData_settled_keeps. by apply settledAt_saveData.
Qed.

Lemma processBatchData_settled_files (stocks : list Stock)
    (bestDataMap : gmap JSValue (option RawQuote)) (st : Store) :
  (forall stockId, stockId ∈ writtenIds stocks bestDataMap -> settledAt bestDataMap st stockId) ->
  files (fst (processBatchData stocks bestDataMap st)) = files st.
Proof.
  revert st. induction stocks as [|stock rest IH]; intros st Hall; simpl in *; [done|].
  destruct (mapGet bestDataMap (JStr (stock_id stock))) as [data|] eqn:Hget; [|by apply IH].
  destruct (parseDate data) as [v|e] eqn:Hdate; [|done].
  destruct (truthy v) eqn:Hv; simpl; [|by apply IH].
  destruct (parseDate_truthy_str _ _ Hdate Hv) as [date ->].
  set (st' := saveData _ _ st).
  assert (Hf : files st' = files st).
  { unfold st'. simpl. apply insert_id.
    apply (Hall (stock_id stock)); [apply list_elem_of_here | done | done]. }
  rewrite IH; [done|].
  intros stockId Hin. apply (settledAt_files _ st); [done|].
  apply Hall. by apply list_elem_of_further.
Qed.

(** X20.  Running [processBatchData] a second time with the same batch and
    the same best rows, on the files the first run left, changes no file:
    each symbol's file after the second run is the file after the first. *)
Theorem processBatchData_idempotent (stocks : list Stock)
    (bestDataMap : gmap JSValue (option RawQuote)) (st : Store) :
  files (fst (processBatchData stocks bestDataMap
                (fst (processBatchData stocks bestDataMap st))))
  = files (fst (processBatchData stocks bestDataMap st)).
Proof.
  apply processBatchData_settled_files. intros stockId Hin.
  by apply processBatchData_settles.
Qed.

(** ** The series invariant over a whole run *)

(** One reconciliation and save keeps both halves of the invariant. *)
Lemma saveData_merge_invariant (stockId : string) (data : RawQuote) (todayDate : JSValue)
    (st : Store) :
  parseDate data = Normal todayDate -> truthy todayDate = true ->
  datedStore st /\ uniqueStore st ->
  let st' := saveData stockId
               (merge (loadExistingData stockId st) (buildNewRow todayDate data)) st in
  datedStore st' /\ uniqueStore st'.
Proof.
  intros Hdate Htruthy [Hdated Hunique] st'. subst st'.
  pose proof (parseDate_key data todayDate Hdate) as Hkey. rewrite Htruthy in Hkey.
  destruct todayDate as [| | | |s]; try discriminate Hkey.
  assert (Hold : forall row, row ∈ loadExistingData stockId st ->
                   isDateKey (rowDate row) = true).
  { intros row Hrow. unfold loadExistingData in Hrow.
    destruct (files st !! stockId) as [series|] eqn:Hlook; simpl in Hrow.
    - by eapply Hdated.
    - by apply not_elem_of_nil in Hrow. }
  assert (Hnew : forall row,
            row ∈ merge (loadExistingData stockId st) (buildNewRow (JStr s) data) ->
            isDateKey (rowDate row) = true) by (by apply merge_dated).
  split; [by apply saveData_dated|].
  apply saveData_unique; [done|done|].
  apply merge_keeps_unique. unfold loadExistingData.
  destruct (files st !! stockId) as [series|] eqn:Hlook; simpl; [|done].
  by eapply Hunique.
Qed.

Lemma processBatchData_invariant (stocks : list Stock)
    (bestDataMap : gmap JSValue (option RawQuote)) (st : Store) :
  datedStore st /\ uniqueStore st ->
  datedStore (fst (processBatchData stocks bestDataMap st))
  /\ uniqueStore (fst (processBatchData stocks bestDataMap st)).
Proof.
  revert st. induction stocks as [|stock rest IH]; intros st Hinv; simpl; [done|].
  destruct (mapGet bestDataMap (JStr (stock_id stock))) as [data|]; [|by apply IH].
  destruct (parseDate data) as [todayDate|e] eqn:Hdate; simpl; [|done].
  destruct (truthy todayDate) eqn:Htruthy; simpl; [|by apply IH].
  apply IH. by apply saveData_merge_invariant.
Qed.

Lemma runBatches_invariant (batches : list (list Stock)) (w : World) (st : Store) :
  datedStore st /\ uniqueStore st ->
  match runBatches batches w st with
  | Some (_, st', _) => datedStore st' /\ uniqueStore st'
  | None => False
  end.
Proof.
  revert w st. induction batches as [|batch rest IH]; intros w st Hinv; simpl; [done|].
  destruct (fetchBatchWithRetry_total batch w) as [[bestDataMap w1] ->].
  pose proof (processBatchData_invariant batch bestDataMap st Hinv) as Hinv1.
  destruct (processBatchData batch bestDataMap st) as [st1 r]. simpl in Hinv1.
  destruct r as [[]|e]; [by apply IH | done].
Qed.

Lemma processStocks_invariant (stocks : list Stock) (w : World) (st : Store) :
  datedStore st /\ uniqueStore st ->
  match processStocks stocks w st with
  | Some (_, st', _) => datedStore st' /\ uniqueStore st'
  | None => False
  end.
Proof.
  revert w st. induction stocks as [|stock rest IH]; intros w st Hinv; simpl; [done|].
  unfold processStock.
  destruct (fetchWithRetry_total stock w) as [[r w1] ->].
  destruct r as [todayData|]; [|by apply IH].
  destruct (parseDate todayData) as [todayDate|e] eqn:Hdate; [|done].
  destruct (truthy todayDate) eqn:Htruthy; cbn [negb]; [|by apply IH].
  apply IH. by apply saveData_merge_invariant.
Qed.

(** X21.  The series invariant holds over a whole run of the batch script:
    from a store in which every row carries a date of one to eight digits and
    no file holds two rows of one date, [main] reaches its end, with status 0
    or 1, in a store with the same two properties, whatever the stock list
    and the provider's answers. *)
Theorem main_keeps_invariant (stockList : list Stock) (w : World) (st : Store) :
  datedStore st -> uniqueStore st ->
  match main stockList w st with
  | Some (_, st', _) => datedStore st' /\ uniqueStore st'
  | None => False
  end.
Proof.
  intros Hdated Hunique. unfold main.
  match goal with |- context [runBatches ?bs w st] =>
    pose proof (runBatches_invariant bs w st (conj Hdated Hunique)) as Hrun;
    destruct (runBatches bs w st) as [[[w' st'] r]|]; [|done]
  end.
  by destruct r.
Qed.

Lemma main_keeps_invariant_witness :
  match main [mkStock "2330" "TSMC" "twse"]
          (mkWorld 0 [(0%N, [quote "2330" "1085.0000" "2025/12/05" "100"])] [])
          (saveData "2330" [[JStr "20251205"; Missing; Missing; Missing; Missing; Missing]]
             emptyStore) with
  | Some (_, st', _) => datedStore st' /\ uniqueStore st'
  | None => False
  end.
Proof.
  apply (main_keeps_invariant [mkStock "2330" "TSMC" "twse"]
           (mkWorld 0 [(0%N, [quote "2330" "1085.0000" "2025/12/05" "100"])] [])
           (saveData "2330" [[JStr "20251205"; Missing; Missing; Missing; Missing; Missing]]
              emptyStore)).
  - intros id series row Hlook Hrow. simpl in Hlook.
    destruct (decide (id = "2330")) as [->|Hne].
    + rewrite lookup_insert_eq in Hlook. injection Hlook as <-.
      apply list_elem_of_singleton in Hrow. by rewrite Hrow.
    + rewrite lookup_insert_ne, lookup_empty in Hlook by done. discriminate Hlook.
  - intros id series Hlook. simpl in Hlook.
    destruct (decide (id = "2330")) as [->|Hne].
    + rewrite lookup_insert_eq in Hlook. by injection Hlook as <-.
    + rewrite lookup_insert_ne, lookup_empty in Hlook by done. discriminate Hlook.
Defined.

(** X22.  The same over a whole run of the per-symbol script: from a store in
    which every row carries a date of one to eight digits and no file holds
    two rows of one date, its [main] reaches its end in a store with the same
    two properties. *)
Theorem mainPerSymbol_keeps_invariant (stockList : list Stock) (w : World) (st : Store) :
  datedStore st -> uniqueStore st ->
  match mainPerSymbol stockList w st with
  | Some (_, st', _) => datedStore st' /\ uniqueStore st'
  | None => False
  end.
Proof.
  intros Hdated Hunique. unfold mainPerSymbol.
  match goal with |- context [processStocks ?ss w st] =>
    pose proof (processStocks_invariant ss w st (conj Hdated Hunique)) as Hrun;
    destruct (processStocks ss w st) as [[[w' st'] r]|]; [|done]
  end.
  by destruct r.
Qed.

Lemma mainPerSymbol_keeps_invariant_witness :
  match mainPerSymbol [mkStock "2330" "TSMC" "twse"]
          (mkWorld 0 [(0%N, [quote "2330" "1085.0000" "2025/12/05" "100"])] [])
          (saveData "2330" [[JStr "20251205"; Missing; Missing; Missing; Missing; Missing]]
             emptyStore) with
  | Some (_, st', _) => datedStore st' /\ uniqueStore st'
  | None => False
  end.
Proof.
  apply (mainPerSymbol_keeps_invariant [mkStock "2330" "TSMC" "twse"]
           (mkWorld 0 [(0%N, [quote "2330" "1085.0000" "2025/12/05" "100"])] [])
           (saveData "2330" [[JStr "20251205"; Missing; Missing; Missing; Missing; Missing]]
              emptyStore)).
  - intros id series row Hlook Hrow. simpl in Hlook.
    destruct (decide (id = "2330")) as [->|Hne].
    + rewrite lookup_insert_eq in Hlook. injection Hlook as <-.
      apply list_elem_of_singleton in Hrow. by rewrite Hrow.
    + rewrite lookup_insert_ne, lookup_empty in Hlook by done. discriminate Hlook.
  - intros id series Hlook. simpl in Hlook.
    destruct (decide (id = "2330")) as [->|Hne].
    + rewrite lookup_insert_eq in Hlook. by injection Hlook as <-.
    + rewrite lookup_insert_ne, lookup_empty in Hlook by done. discriminate Hlook.
Defined.
